(** * Connection lifecycle and pooling of the Snowflake MCP server

    A shallow embedding of [src/clients/snowflake-client.ts] (the
    [SnowflakeClient] class), [src/utils/connection-pool.ts] (the
    [ConnectionPool] class) and the part of
    [src/handlers/snowflake-resource-handler.ts] that chooses the timeout
    of a query, with the properties of the connection pool, its wait
    queue, its idle reclamation and the query deadline.

    Conventions of the embedding.
    - A JavaScript [number] that holds a count, a duration or a timestamp is
      a [Z] (milliseconds for durations and timestamps).  [NaN], fractions
      and integers beyond the safe range (2^53 and up) are not represented.
    - An optional field ([timeout?: number], [Partial<...>]) is an [option].
    - [Date.now()], the random suffix of generated identifiers and the
      answers of the Snowflake SDK are inputs of the operation that reads
      them.
    - An object compared with [===] carries an identity: a client has a
      [ref], a promise a number, and the functions stored in the wait queue
      are values of [ResolveFn] and [RejectFn].
    - An [async] method is cut at its [await]s: the code between two
      suspension points runs without interleaving, and each such block is
      one function on the state of the pool. *)

From Stdlib Require Import ZArith List String Bool Lia DecimalString.
Import ListNotations.

Set Implicit Arguments.

Open Scope Z_scope.

(** ** JavaScript idioms *)

(** [x || d] on an optional number: [undefined] and [0] are falsy. *)
Definition orDefault (x : option Z) (d : Z) : Z :=
  match x with
  | Some v => if v =? 0 then d else v
  | None => d
  end.

(** A template literal prints an integer of the safe range in decimal
    (the exponent form starts at 10^21, far beyond that range). *)
Definition showZ (n : Z) : string := NilZero.string_of_int (Z.to_int n).

(** A promise seen from outside: it settles at some time, with an error or a
    value, or it stays pending for ever. *)
Inductive Promise (E A : Type) : Type :=
| Settles (at_ : Z) (r : E + A)
| Pending.

Arguments Settles {E A} at_ r.
Arguments Pending {E A}.

(** [Promise.race([p, q])]: the promise that settles first decides; when
    both settle in the same millisecond the first of the array is taken. *)
Definition race {E A : Type} (p q : Promise E A) : Promise E A :=
  match p, q with
  | Pending, _ => q
  | _, Pending => p
  | Settles tp _, Settles tq _ => if tp <=? tq then p else q
  end.

(** The delay [setTimeout] really waits: Node sets a delay that is less
    than 1 or larger than 2147483647 to 1. *)
Definition TIMEOUT_MAX : Z := 2147483647.

Definition timerDelay (ms : Z) : Z :=
  if (1 <=? ms) && (ms <=? TIMEOUT_MAX) then ms else 1.

(** [new Promise((_, reject) => setTimeout(() => reject(e), ms))] armed at
    [start]. *)
Definition rejectAfter {E A : Type} (start ms : Z) (e : E) : Promise E A :=
  Settles (start + timerDelay ms) (inl e).

(** * The client: [SnowflakeClient] *)

Module Client.

Inductive Authenticator := snowflake | externalbrowser.

Record SnowflakeConfig := {
  account : string;
  username : string;
  password : option string;
  database : string;
  schema : string;
  warehouse : string;
  role : string;
  authenticator : Authenticator
}.

Record ColumnMetadata := {
  name : string;
  type : string;
  nullable : bool
}.

Definition Row := list (string * string).

Record QueryResult := {
  rows : list Row;
  rowCount : Z;
  columns : list ColumnMetadata
}.

Inductive Priority := low | normal | high.

Record QueryOptions := {
  timeout : option Z;
  priority : option Priority
}.

(** The errors the client raises, by the message the source builds. *)
Inductive Error :=
| ConnectTimeout                      (* "Connection timeout after 10 seconds" *)
| ConnectFailed (cause : string)      (* "Snowflake connection failed: ..." *)
| NoConnection                        (* "Failed to establish connection to Snowflake" *)
| ExecutionFailed (cause : string)    (* "SQL execution failed: ..." *)
| QueryTimeout (ms : Z).              (* "Query execution timeout after ...ms" *)

Definition message (e : Error) : string :=
  match e with
  | ConnectTimeout => "Connection timeout after 10 seconds"
  | ConnectFailed cause => "Snowflake connection failed: " ++ cause
  | NoConnection => "Failed to establish connection to Snowflake"
  | ExecutionFailed cause => "SQL execution failed: " ++ cause
  | QueryTimeout ms => "Query execution timeout after " ++ showZ ms ++ "ms"
  end%string.

(** The fields of the object.  [connection] is [true] when
    [this.connection] is not [null]; [connectionPromise] is [Some since]
    when it holds the promise of an attempt started at [since], and [None]
    when it is [null]. *)
Record SnowflakeClient := {
  ref : nat;
  config : SnowflakeConfig;
  connection : bool;
  connectionPromise : option Z;
  isConnecting : bool;
  lastUsed : Z;
  activeQueries : list string
}.

Definition defaultTimeout : Z := 30000.

Definition new (r : nat) (cfg : SnowflakeConfig) (now : Z) : SnowflakeClient :=
  {| ref := r; config := cfg; connection := false;
     connectionPromise := None; isConnecting := false;
     lastUsed := now; activeQueries := [] |}.

Definition set_connection (b : bool) (c : SnowflakeClient) : SnowflakeClient :=
  {| ref := ref c; config := config c; connection := b;
     connectionPromise := connectionPromise c;
     isConnecting := isConnecting c; lastUsed := lastUsed c;
     activeQueries := activeQueries c |}.

Definition set_isConnecting (b : bool) (c : SnowflakeClient) : SnowflakeClient :=
  {| ref := ref c; config := config c; connection := connection c;
     connectionPromise := connectionPromise c;
     isConnecting := b; lastUsed := lastUsed c;
     activeQueries := activeQueries c |}.

Definition set_lastUsed (t : Z) (c : SnowflakeClient) : SnowflakeClient :=
  {| ref := ref c; config := config c; connection := connection c;
     connectionPromise := connectionPromise c;
     isConnecting := isConnecting c; lastUsed := t;
     activeQueries := activeQueries c |}.

Definition set_connectionPromise (p : option Z) (c : SnowflakeClient)
  : SnowflakeClient :=
  {| ref := ref c; config := config c; connection := connection c;
     connectionPromise := p;
     isConnecting := isConnecting c; lastUsed := lastUsed c;
     activeQueries := activeQueries c |}.

Definition set_activeQueries (q : list string) (c : SnowflakeClient)
  : SnowflakeClient :=
  {| ref := ref c; config := config c; connection := connection c;
     connectionPromise := connectionPromise c;
     isConnecting := isConnecting c; lastUsed := lastUsed c;
     activeQueries := q |}.

(** [isConnectionHealthy]: connected and used within the last 30 minutes. *)
Definition maxIdleTime : Z := 30 * 60 * 1000.

Definition isConnectionHealthy (c : SnowflakeClient) (now : Z) : bool :=
  if negb (connection c) then false
  else if maxIdleTime <? now - lastUsed c then false
  else true.

Definition isConnected (c : SnowflakeClient) (now : Z) : bool :=
  connection c && isConnectionHealthy c now.

(** What the SDK does with [connection.connect(callback)]: it calls back
    after some delay, with or without an error, or never. *)
Inductive Handshake :=
| HandshakeOk (after : Z)
| HandshakeErr (after : Z) (msg : string)
| HandshakeSilent.

(** [establishConnection]: the first of the callback and of a timer of
    ten seconds settles the promise (the timer is armed before [connect] is
    called, so it comes first when both are due in the same millisecond); a
    failure resets [this.connection] to [null]. *)
Definition establishConnection (c : SnowflakeClient) (now : Z) (hs : Handshake)
  : Promise Error unit * SnowflakeClient :=
  let c1 := set_connection true c in
  let timer := rejectAfter now 10000 ConnectTimeout in
  let callback :=
    match hs with
    | HandshakeOk d => Settles (now + d) (inr tt)
    | HandshakeErr d msg => Settles (now + d) (inl (ConnectFailed msg))
    | HandshakeSilent => Pending
    end in
  match race timer callback with
  | Settles t (inr tt) => (Settles t (inr tt), set_lastUsed t c1)
  | Settles t (inl e) => (Settles t (inl e), set_connection false c1)
  | Pending => (Pending, c1)
  end.

(** The attempt in flight, if any: [this.isConnecting &&
    this.connectionPromise]. *)
Definition attemptInFlight (c : SnowflakeClient) : option Z :=
  if isConnecting c then connectionPromise c else None.

(** [connect]: a healthy connection is reused; the promise of an attempt
    in flight is returned as it is (the attempt was started at [since], not
    after [now], and its answer is [hs]); otherwise a new attempt is made.
    The client returned is the object when the promise settles, after the
    [finally] of the call that made the attempt. *)
Definition connect (c : SnowflakeClient) (now : Z) (hs : Handshake)
  : Promise Error unit * SnowflakeClient :=
  if connection c && isConnectionHealthy c now then
    (Settles now (inr tt), set_lastUsed now c)
  else
    let start := match attemptInFlight c with
                 | Some since => Z.min now since
                 | None => now
                 end in
    let c0 := match attemptInFlight c with
              | Some _ => c
              | None => set_connectionPromise (Some now) (set_isConnecting true c)
              end in
    let (p, c1) := establishConnection c0 start hs in
    match p with
    | Settles _ _ =>
        (p, set_connectionPromise None (set_isConnecting false c1))
    | Pending => (p, c1)
    end.

(** What the SDK does with [connection.execute({complete})]: the statement
    handle is [None] when it is missing or has no [getColumns]. *)
Definition Statement := option (list ColumnMetadata).

Inductive Completion :=
| Completes (after : Z) (r : string + Statement * list Row)
| NeverCompletes.

Definition executeQuery (start : Z) (op : Completion)
  : Promise Error (Statement * list Row) :=
  match op with
  | Completes d (inl msg) => Settles (start + d) (inl (ExecutionFailed msg))
  | Completes d (inr r) => Settles (start + d) (inr r)
  | NeverCompletes => Pending
  end.

Definition createTimeoutPromise (start timeout : Z)
  : Promise Error (Statement * list Row) :=
  rejectAfter start timeout (QueryTimeout timeout).

Definition extractColumnMetadata (stmt : Statement) : list ColumnMetadata :=
  match stmt with
  | None => []
  | Some cols => cols
  end.

Definition remove_query (q : string) (l : list string) : list string :=
  filter (fun x => negb (String.eqb x q)) l.

(** [execute]: connect if needed, then race the query against the timer.
    [queryId] is the generated identifier.  The result is the promise that
    [execute] returns together with the state of the client once it has
    settled. *)
Definition execute (c : SnowflakeClient) (options : QueryOptions)
    (now : Z) (queryId : string) (hs : Handshake) (op : Completion)
  : Promise Error QueryResult * SnowflakeClient :=
  match connect c now hs with
  | (Pending, c1) => (Pending, c1)
  | (Settles t (inl e), c1) => (Settles t (inl e), c1)
  | (Settles startTime (inr tt), c1) =>
      if negb (connection c1) then (Settles startTime (inl NoConnection), c1)
      else
        let timeout := orDefault (timeout options) defaultTimeout in
        let c2 := set_lastUsed startTime
                    (set_activeQueries (queryId :: remove_query queryId
                                                   (activeQueries c1)) c1) in
        let finally_ := set_activeQueries (remove_query queryId (activeQueries c2)) in
        match race (executeQuery startTime op)
                   (createTimeoutPromise startTime timeout) with
        | Settles t (inr (stmt, rs)) =>
            (Settles t (inr {| rows := rs;
                               rowCount := Z.of_nat (List.length rs);
                               columns := extractColumnMetadata stmt |}),
             finally_ c2)
        | Settles t (inl e) => (Settles t (inl e), finally_ c2)
        | Pending => (Pending, c2)
        end
  end.

(** The operation is still running [ms] after it was started. *)
Definition notCompletedWithin (ms : Z) (op : Completion) : Prop :=
  match op with
  | Completes d _ => ms < d
  | NeverCompletes => True
  end.

(** ** [disconnect], [reconnect], [getConnectionStats] *)

(** What the SDK does with [connection.destroy(callback)]. *)
Inductive Destroy :=
| Destroyed (after : Z)
| DestroyErr (after : Z) (msg : string)
| DestroySilent.

(** The error of [disconnect]: "Disconnect failed: ...". *)
Inductive DisconnectError := DisconnectFailed (cause : string).

(** [disconnect]: nothing to do without a connection; otherwise the promise
    follows the callback of [destroy], without a timer, and the [finally]
    resets [this.connection] when it settles. *)
Definition disconnect (c : SnowflakeClient) (now : Z) (d : Destroy)
  : Promise DisconnectError unit * SnowflakeClient :=
  if negb (connection c) then (Settles now (inr tt), c)
  else
    match d with
    | Destroyed t => (Settles (now + t) (inr tt), set_connection false c)
    | DestroyErr t msg =>
        (Settles (now + t) (inl (DisconnectFailed msg)), set_connection false c)
    | DestroySilent => (Pending, c)
    end.

(** [reconnect]: disconnect if there is a connection, whatever the outcome,
    then connect. *)
Definition reconnect (c : SnowflakeClient) (now : Z) (d : Destroy)
    (hs : Handshake) : Promise Error unit * SnowflakeClient :=
  if connection c then
    match disconnect c now d with
    | (Settles t _, c1) => connect c1 t hs
    | (Pending, c1) => (Pending, c1)
    end
  else connect c now hs.

Record ConnectionStats := {
  stats_isConnected : bool;
  stats_isConnecting : bool;
  stats_activeQueries : Z;
  stats_lastUsed : Z;
  stats_timeSinceLastUse : Z
}.

Definition getConnectionStats (c : SnowflakeClient) (now : Z) : ConnectionStats :=
  {| stats_isConnected := isConnected c now;
     stats_isConnecting := isConnecting c;
     stats_activeQueries := Z.of_nat (List.length (activeQueries c));
     stats_lastUsed := lastUsed c;
     stats_timeSinceLastUse := now - lastUsed c |}.

End Client.

(** * The pool: [ConnectionPool] *)

Module Pool.

Record ConnectionPoolConfig := {
  maxConnections : Z;
  minConnections : Z;
  connectionTimeout : Z;
  idleTimeout : Z;
  acquireTimeout : Z
}.

(** [Partial<ConnectionPoolConfig>], the argument of the constructor. *)
Module Partial.
Record ConnectionPoolConfig := {
  maxConnections : option Z;
  minConnections : option Z;
  connectionTimeout : option Z;
  idleTimeout : option Z;
  acquireTimeout : option Z
}.
Definition empty : ConnectionPoolConfig :=
  {| maxConnections := None; minConnections := None;
     connectionTimeout := None; idleTimeout := None; acquireTimeout := None |}.
End Partial.

Record PooledConnection := {
  client : Client.SnowflakeClient;
  id : string;
  createdAt : Z;
  lastUsed : Z;
  inUse : bool
}.

(** The functions held by an entry of the wait queue.  [PromiseResolve p]
    and [PromiseReject p] are the two functions the executor of promise [p]
    receives; [ResolveWrapper p] and [RejectWrapper p] are the arrow
    functions [waitForConnection] builds around them (they clear the timer
    first).  Two functions are [===] only when they are the same object. *)
Inductive ResolveFn := PromiseResolve (p : nat) | ResolveWrapper (p : nat).
Inductive RejectFn := PromiseReject (p : nat) | RejectWrapper (p : nat).

Definition ResolveFn_eqb (f g : ResolveFn) : bool :=
  match f, g with
  | PromiseResolve p, PromiseResolve q => Nat.eqb p q
  | ResolveWrapper p, ResolveWrapper q => Nat.eqb p q
  | _, _ => false
  end.

Record WaitRequest := {
  resolve : ResolveFn;
  reject : RejectFn;
  timestamp : Z
}.

(** The errors that reach a caller of the pool, and the one
    [createConnection] rethrows to [acquire] and [initialize]. *)
Inductive Error :=
| ShuttingDown                        (* "Connection pool is shutting down" *)
| AcquireTimeout (ms : Z)             (* "Connection acquire timeout after ...ms" *)
| CreateFailed (cause : Client.Error).

Definition message (e : Error) : string :=
  match e with
  | ShuttingDown => "Connection pool is shutting down"
  | AcquireTimeout ms => "Connection acquire timeout after " ++ showZ ms ++ "ms"
  | CreateFailed cause => Client.message cause
  end%string.

(** What callers observe, in the order it happens: [acquire] call [p]
    returns a client or throws, or one of the two functions of the promise
    [p] made by [waitForConnection] is called (only the first call for a
    promise settles it). *)
Inductive Event :=
| Returned (p : nat) (c : nat)
| Threw (p : nat) (e : Error)
| Resolved (p : nat) (c : nat)
| Rejected (p : nat) (e : Error).

(** A [createConnection] call suspended at [await client.connect()]. *)
Inductive Owner := ByAcquire (p : nat) | ByInitialize.

Record Creation := {
  owner : Owner;
  connectionId : string;
  newClient : Client.SnowflakeClient;
  startedAt : Z
}.

(** The object, and what the runtime holds for it: the counters that name
    new promises and clients, the armed [setTimeout] handles of waiters, the
    suspended [createConnection] calls, the [acquire] calls whose
    [createConnection] has settled and that wait to be resumed, the
    [shutdown] calls that await their disconnects, the ticks of the
    cleanup timer that await a disconnect (each with the connections it
    has still to close), and the trace. *)
Record ConnectionPool := {
  config : Client.SnowflakeConfig;
  poolConfig : ConnectionPoolConfig;
  connections : list PooledConnection;
  waitingQueue : list WaitRequest;
  isShuttingDown : bool;
  cleanupInterval : bool;
  nextPromise : nat;
  nextClient : nat;
  timers : list nat;
  connecting : list Creation;
  resuming : list (nat * (Error + nat));
  closing : nat;
  cleaning : list (list PooledConnection);
  events : list Event
}.

Definition set_connections (v : list PooledConnection) (s : ConnectionPool) :=
  {| config := config s; poolConfig := poolConfig s; connections := v;
     waitingQueue := waitingQueue s; isShuttingDown := isShuttingDown s;
     cleanupInterval := cleanupInterval s; nextPromise := nextPromise s;
     nextClient := nextClient s; timers := timers s;
     connecting := connecting s; resuming := resuming s;
     closing := closing s;
     cleaning := cleaning s; events := events s |}.

Definition set_waitingQueue (v : list WaitRequest) (s : ConnectionPool) :=
  {| config := config s; poolConfig := poolConfig s;
     connections := connections s;
     waitingQueue := v; isShuttingDown := isShuttingDown s;
     cleanupInterval := cleanupInterval s; nextPromise := nextPromise s;
     nextClient := nextClient s; timers := timers s;
     connecting := connecting s; resuming := resuming s;
     closing := closing s;
     cleaning := cleaning s; events := events s |}.

Definition set_isShuttingDown (v : bool) (s : ConnectionPool) :=
  {| config := config s; poolConfig := poolConfig s;
     connections := connections s;
     waitingQueue := waitingQueue s; isShuttingDown := v;
     cleanupInterval := cleanupInterval s; nextPromise := nextPromise s;
     nextClient := nextClient s; timers := timers s;
     connecting := connecting s; resuming := resuming s;
     closing := closing s;
     cleaning := cleaning s; events := events s |}.

Definition set_cleanupInterval (v : bool) (s : ConnectionPool) :=
  {| config := config s; poolConfig := poolConfig s;
     connections := connections s;
     waitingQueue := waitingQueue s; isShuttingDown := isShuttingDown s;
     cleanupInterval := v; nextPromise := nextPromise s;
     nextClient := nextClient s; timers := timers s;
     connecting := connecting s; resuming := resuming s;
     closing := closing s;
     cleaning := cleaning s; events := events s |}.

Definition set_nextPromise (v : nat) (s : ConnectionPool) :=
  {| config := config s; poolConfig := poolConfig s;
     connections := connections s;
     waitingQueue := waitingQueue s; isShuttingDown := isShuttingDown s;
     cleanupInterval := cleanupInterval s; nextPromise := v;
     nextClient := nextClient s; timers := timers s;
     connecting := connecting s; resuming := resuming s;
     closing := closing s;
     cleaning := cleaning s; events := events s |}.

Definition set_nextClient (v : nat) (s : ConnectionPool) :=
  {| config := config s; poolConfig := poolConfig s;
     connections := connections s;
     waitingQueue := waitingQueue s; isShuttingDown := isShuttingDown s;
     cleanupInterval := cleanupInterval s; nextPromise := nextPromise s;
     nextClient := v; timers := timers s;
     connecting := connecting s; resuming := resuming s;
     closing := closing s;
     cleaning := cleaning s; events := events s |}.

Definition set_timers (v : list nat) (s : ConnectionPool) :=
  {| config := config s; poolConfig := poolConfig s;
     connections := connections s;
     waitingQueue := waitingQueue s; isShuttingDown := isShuttingDown s;
     cleanupInterval := cleanupInterval s; nextPromise := nextPromise s;
     nextClient := nextClient s; timers := v;
     connecting := connecting s; resuming := resuming s;
     closing := closing s;
     cleaning := cleaning s; events := events s |}.

Definition set_connecting (v : list Creation) (s : ConnectionPool) :=
  {| config := config s; poolConfig := poolConfig s;
     connections := connections s;
     waitingQueue := waitingQueue s; isShuttingDown := isShuttingDown s;
     cleanupInterval := cleanupInterval s; nextPromise := nextPromise s;
     nextClient := nextClient s; timers := timers s;
     connecting := v; resuming := resuming s;
     closing := closing s;
     cleaning := cleaning s; events := events s |}.

Definition set_resuming (v : list (nat * (Error + nat))) (s : ConnectionPool) :=
  {| config := config s; poolConfig := poolConfig s;
     connections := connections s;
     waitingQueue := waitingQueue s; isShuttingDown := isShuttingDown s;
     cleanupInterval := cleanupInterval s; nextPromise := nextPromise s;
     nextClient := nextClient s; timers := timers s;
     connecting := connecting s; resuming := v;
     closing := closing s;
     cleaning := cleaning s; events := events s |}.

Definition set_closing (v : nat) (s : ConnectionPool) :=
  {| config := config s; poolConfig := poolConfig s;
     connections := connections s;
     waitingQueue := waitingQueue s; isShuttingDown := isShuttingDown s;
     cleanupInterval := cleanupInterval s; nextPromise := nextPromise s;
     nextClient := nextClient s; timers := timers s;
     connecting := connecting s; resuming := resuming s;
     closing := v;
     cleaning := cleaning s; events := events s |}.

Definition set_cleaning (v : list (list PooledConnection)) (s : ConnectionPool) :=
  {| config := config s; poolConfig := poolConfig s;
     connections := connections s;
     waitingQueue := waitingQueue s; isShuttingDown := isShuttingDown s;
     cleanupInterval := cleanupInterval s; nextPromise := nextPromise s;
     nextClient := nextClient s; timers := timers s;
     connecting := connecting s; resuming := resuming s;
     closing := closing s;
     cleaning := v; events := events s |}.

Definition emit (e : Event) (s : ConnectionPool) :=
  {| config := config s; poolConfig := poolConfig s;
     connections := connections s;
     waitingQueue := waitingQueue s; isShuttingDown := isShuttingDown s;
     cleanupInterval := cleanupInterval s; nextPromise := nextPromise s;
     nextClient := nextClient s; timers := timers s;
     connecting := connecting s; resuming := resuming s;
     closing := closing s;
     cleaning := cleaning s; events := events s ++ [e] |}.

(** ** The constructor *)

(** [x || d] for each setting, then [startCleanupTimer]. *)
Definition constructor (cfg : Client.SnowflakeConfig)
    (pc : Partial.ConnectionPoolConfig) : ConnectionPool :=
  {| config := cfg;
     poolConfig :=
       {| maxConnections := orDefault (Partial.maxConnections pc) 10;
          minConnections := orDefault (Partial.minConnections pc) 2;
          connectionTimeout := orDefault (Partial.connectionTimeout pc) 30000;
          idleTimeout := orDefault (Partial.idleTimeout pc) 300000;
          acquireTimeout := orDefault (Partial.acquireTimeout pc) 10000 |};
     connections := [];
     waitingQueue := [];
     isShuttingDown := false;
     cleanupInterval := true;
     nextPromise := 0%nat;
     nextClient := 0%nat;
     timers := [];
     connecting := [];
     resuming := [];
     closing := 0%nat;
     cleaning := [];
     events := [] |}.

(** The expression [new ConnectionPool(cfg, pc)]: it yields the object, or
    the error the constructor throws.  The constructor of the source has no
    [throw]. *)
Definition new (cfg : Client.SnowflakeConfig)
    (pc : Partial.ConnectionPoolConfig) : Error + ConnectionPool :=
  inr (constructor cfg pc).

(** ** The map of connections

    [Map<string, PooledConnection>] iterates in insertion order; the key of
    an entry is its [id]. *)

Definition size (m : list PooledConnection) : Z := Z.of_nat (List.length m).

Definition has_id (k : string) (c : PooledConnection) : bool := String.eqb (id c) k.

Definition map_set (k : string) (v : PooledConnection)
    (m : list PooledConnection) : list PooledConnection :=
  if existsb (has_id k) m
  then map (fun c => if has_id k c then v else c) m
  else m ++ [v].

Definition map_delete (k : string) (m : list PooledConnection)
  : list PooledConnection :=
  filter (fun c => negb (has_id k c)) m.

(** The loop [for (const connection of ...) if (test) return connection]
    followed by an assignment to fields of the connection found: the first
    entry that passes the test is changed in place. *)
Fixpoint updateFirst (test : PooledConnection -> bool)
    (f : PooledConnection -> PooledConnection)
    (m : list PooledConnection) : list PooledConnection :=
  match m with
  | [] => []
  | c :: m' => if test c then f c :: m' else c :: updateFirst test f m'
  end.

Definition set_inUse (b : bool) (c : PooledConnection) : PooledConnection :=
  {| client := client c; id := id c; createdAt := createdAt c;
     lastUsed := lastUsed c; inUse := b |}.

Definition set_lastUsed (t : Z) (c : PooledConnection) : PooledConnection :=
  {| client := client c; id := id c; createdAt := createdAt c;
     lastUsed := t; inUse := inUse c |}.

Definition set_client (cl : Client.SnowflakeClient) (c : PooledConnection)
  : PooledConnection :=
  {| client := cl; id := id c; createdAt := createdAt c;
     lastUsed := lastUsed c; inUse := inUse c |}.

Definition has_client (r : nat) (c : PooledConnection) : bool :=
  Nat.eqb (Client.ref (client c)) r.

Definition available (now : Z) (c : PooledConnection) : bool :=
  negb (inUse c) && Client.isConnected (client c) now.

Definition findAvailableConnection (s : ConnectionPool) (now : Z)
  : option PooledConnection :=
  find (available now) (connections s).

Definition findConnectionByClient (s : ConnectionPool) (r : nat)
  : option PooledConnection :=
  find (has_client r) (connections s).

Definition getAvailableConnectionCount (s : ConnectionPool) (now : Z) : Z :=
  Z.of_nat (List.length (filter (available now) (connections s))).

Definition getInUseConnectionCount (s : ConnectionPool) : Z :=
  Z.of_nat (List.length (filter inUse (connections s))).


(** ** Waiters *)

Definition clearTimeout (p : nat) (s : ConnectionPool) : ConnectionPool :=
  set_timers (filter (fun q => negb (Nat.eqb q p)) (timers s)) s.

(** Calling a function stored in a wait request, or one of the two
    functions of a promise. *)
Definition callResolve (f : ResolveFn) (c : nat) (s : ConnectionPool)
  : ConnectionPool :=
  match f with
  | PromiseResolve p => emit (Resolved p c) s
  | ResolveWrapper p => emit (Resolved p c) (clearTimeout p s)
  end.

Definition callReject (f : RejectFn) (e : Error) (s : ConnectionPool)
  : ConnectionPool :=
  match f with
  | PromiseReject p => emit (Rejected p e) s
  | RejectWrapper p => emit (Rejected p e) (clearTimeout p s)
  end.

(** [waitForConnection], for the promise [p] it creates: arm the timer,
    push the request at the end of the array. *)
Definition waitForConnection (p : nat) (now : Z) (s : ConnectionPool)
  : ConnectionPool :=
  let s1 := set_timers (timers s ++ [p]) s in
  set_waitingQueue
    (waitingQueue s1 ++
       [{| resolve := ResolveWrapper p; reject := RejectWrapper p;
           timestamp := now |}]) s1.

(** [Array.prototype.findIndex] ([None] for [-1]) and [splice(index, 1)]. *)
Fixpoint findIndex {A : Type} (test : A -> bool) (l : list A) : option nat :=
  match l with
  | [] => None
  | x :: l' => if test x then Some 0%nat
               else option_map S (findIndex test l')
  end.

Fixpoint splice1 {A : Type} (index : nat) (l : list A) : list A :=
  match l, index with
  | [], _ => []
  | _ :: l', O => l'
  | x :: l', S i => x :: splice1 i l'
  end.

(** The callback given to [setTimeout] in [waitForConnection], for the
    promise [p]: it runs when the timer of [p] is still armed.  Its
    [resolve] is the function of the promise, [PromiseResolve p]. *)
Definition acquireTimer_fires (p : nat) (s : ConnectionPool) : ConnectionPool :=
  if existsb (Nat.eqb p) (timers s) then
    let s1 := clearTimeout p s in
    let index :=
      findIndex (fun req => ResolveFn_eqb (resolve req) (PromiseResolve p))
                (waitingQueue s1) in
    let s2 := match index with
              | Some i => set_waitingQueue (splice1 i (waitingQueue s1)) s1
              | None => s1
              end in
    callReject (PromiseReject p)
               (AcquireTimeout (acquireTimeout (poolConfig s2))) s2
  else s.

(** [processWaitingQueue]: the recursion follows the queue, which is the
    [waitingQueue] of the state at every iteration. *)
Fixpoint processWaitingQueue_loop (queue : list WaitRequest) (now : Z)
    (s : ConnectionPool) : ConnectionPool :=
  match queue with
  | [] => s
  | request :: rest =>
      match findAvailableConnection s now with
      | None => s
      | Some availableConnection =>
          let s1 := set_waitingQueue rest s in
          let s2 := set_connections
                      (updateFirst (available now)
                         (fun c => set_lastUsed now (set_inUse true c))
                         (connections s1)) s1 in
          processWaitingQueue_loop rest now
            (callResolve (resolve request)
                         (Client.ref (client availableConnection)) s2)
      end
  end.

Definition processWaitingQueue (now : Z) (s : ConnectionPool) : ConnectionPool :=
  processWaitingQueue_loop (waitingQueue s) now s.

(** ** Creating connections *)

(** [createConnection] up to [await client.connect()]. *)
Definition createConnection (o : Owner) (connectionId : string) (now : Z)
    (s : ConnectionPool) : ConnectionPool :=
  let c := Client.new (nextClient s) (config s) now in
  set_connecting
    (connecting s ++
       [{| owner := o; connectionId := connectionId; newClient := c;
           startedAt := now |}])
    (set_nextClient (S (nextClient s)) s).

Definition creates (r : nat) (cr : Creation) : bool :=
  Nat.eqb (Client.ref (newClient cr)) r.

(** [createConnection] from the moment [client.connect()] of the client
    [r] settles, the SDK having answered [hs]: on success the connection
    is stored in the map, on failure the error is thrown again.  The
    [catch] of [initialize] only logs; an [acquire] that awaits the call is
    resumed later, with the client or the error. *)
Definition createConnection_resume (r : nat) (hs : Client.Handshake) (now : Z)
    (s : ConnectionPool) : ConnectionPool :=
  match find (creates r) (connecting s) with
  | None => s
  | Some cr =>
      let s1 := set_connecting
                  (filter (fun x => negb (creates r x)) (connecting s)) s in
      match Client.connect (newClient cr) (startedAt cr) hs with
      | (Pending, _) => s
      | (Settles _ (inr _), c) =>
          let connection :=
            {| client := c; id := connectionId cr; createdAt := now;
               lastUsed := now; inUse := false |} in
          let s2 := set_connections
                      (map_set (connectionId cr) connection (connections s1))
                      s1 in
          match owner cr with
          | ByAcquire p => set_resuming (resuming s2 ++ [(p, inr r)]) s2
          | ByInitialize => s2
          end
      | (Settles _ (inl e), _) =>
          match owner cr with
          | ByAcquire p =>
              set_resuming (resuming s1 ++ [(p, inl (CreateFailed e))]) s1
          | ByInitialize => s1
          end
      end
  end.

(** ** [initialize] *)

Fixpoint initialize_loop (n i : nat) (ids : nat -> string) (now : Z)
    (s : ConnectionPool) : ConnectionPool :=
  match n with
  | O => s
  | S n' =>
      initialize_loop n' (S i) ids now
        (createConnection ByInitialize (ids i) now s)
  end.

Definition initialize (now : Z) (ids : nat -> string) (s : ConnectionPool)
  : ConnectionPool :=
  initialize_loop (Z.to_nat (minConnections (poolConfig s))) 0 ids now s.

(** ** [acquire] *)

(** [acquire] up to its first [await] (or to its end).  [connectionId] is
    what [generateConnectionId] returns if it is called. *)
Definition acquire (now : Z) (connectionId : string) (s0 : ConnectionPool)
  : ConnectionPool :=
  let p := nextPromise s0 in
  let s := set_nextPromise (S p) s0 in
  if isShuttingDown s then emit (Threw p ShuttingDown) s
  else
    match findAvailableConnection s now with
    | Some availableConnection =>
        emit (Returned p (Client.ref (client availableConnection)))
          (set_connections
             (updateFirst (available now)
                (fun c => set_lastUsed now (set_inUse true c))
                (connections s)) s)
    | None =>
        if size (connections s) <? maxConnections (poolConfig s)
        then createConnection (ByAcquire p) connectionId now s
        else waitForConnection p now s
    end.

Definition resumes (p : nat) (x : nat * (Error + nat)) : bool :=
  Nat.eqb (fst x) p.

(** [acquire] after [await this.createConnection()]: mark the connection
    and return its client, or, in the [catch], fall through to
    [waitForConnection]. *)
Definition acquire_resume (p : nat) (now : Z) (s : ConnectionPool)
  : ConnectionPool :=
  match find (resumes p) (resuming s) with
  | None => s
  | Some (_, r) =>
      let s1 := set_resuming
                  (filter (fun x => negb (resumes p x)) (resuming s)) s in
      match r with
      | inr c =>
          emit (Returned p c)
            (set_connections
               (updateFirst (has_client c) (set_inUse true) (connections s1))
               s1)
      | inl _ => waitForConnection p now s1
      end
  end.

(** ** [release] *)

(** The second component is how the promise that [release] returns
    settles. *)
Definition release (r : nat) (now : Z) (s : ConnectionPool)
  : ConnectionPool * (Error + unit) :=
  match findConnectionByClient s r with
  | None => (s, inr tt)
  | Some _ =>
      let s1 := set_connections
                  (updateFirst (has_client r)
                     (fun c => set_lastUsed now (set_inUse false c))
                     (connections s)) s in
      (processWaitingQueue now s1, inr tt)
  end.

(** ** [shutdown] *)

Fixpoint rejectAll (queue : list WaitRequest) (e : Error) (s : ConnectionPool)
  : ConnectionPool :=
  match queue with
  | [] => s
  | request :: rest =>
      rejectAll rest e (callReject (reject request) e (set_waitingQueue rest s))
  end.

(** [shutdown] up to [await Promise.allSettled(closePromises)]. *)
Definition shutdown (s : ConnectionPool) : ConnectionPool :=
  let s1 := set_isShuttingDown true s in
  let s2 := if cleanupInterval s1 then set_cleanupInterval false s1 else s1 in
  let s3 := rejectAll (waitingQueue s2) ShuttingDown s2 in
  set_closing (S (closing s3)) s3.

(** [shutdown] after that [await]: [this.connections.clear()], and the
    promise of [shutdown] resolves. *)
Definition shutdown_resume (s : ConnectionPool) : ConnectionPool :=
  match closing s with
  | O => s
  | S n => set_connections [] (set_closing n s)
  end.

(** ** [cleanupIdleConnections] *)

Definition shouldClose (s : ConnectionPool) (now : Z) (connection : PooledConnection)
  : bool :=
  let idleTime := now - lastUsed connection in
  negb (inUse connection)
  && (idleTimeout (poolConfig s) <? idleTime)
  && (minConnections (poolConfig s) <? size (connections s)).

(** [client.disconnect()] on the client of an entry: nothing to do without
    a connection; otherwise the SDK destroys it, with or without an error
    ([destroyOk]), and [this.connection] is reset in the [finally]. *)
Definition disconnect (destroyOk : nat -> bool) (c : Client.SnowflakeClient)
  : bool * Client.SnowflakeClient :=
  if Client.connection c
  then (destroyOk (Client.ref c), Client.set_connection false c)
  else (true, c).

(** The second loop: the entry is deleted when its disconnect succeeded;
    the [catch] only logs. *)
Fixpoint closeAll (connectionsToClose : list PooledConnection)
    (destroyOk : nat -> bool) (m : list PooledConnection)
  : list PooledConnection :=
  match connectionsToClose with
  | [] => m
  | connection :: rest =>
      let (ok, c) := disconnect destroyOk (client connection) in
      let m1 := map (fun x => if has_client (Client.ref c) x
                              then set_client c x else x) m in
      closeAll rest destroyOk
        (if ok then map_delete (id connection) m1 else m1)
  end.

(** One tick of the interval timer; the disconnects are taken to settle
    before any other operation of the pool runs. *)
Definition cleanupIdleConnections (now : Z) (destroyOk : nat -> bool)
    (s : ConnectionPool) : ConnectionPool :=
  if isShuttingDown s then s
  else
    let connectionsToClose := filter (shouldClose s now) (connections s) in
    set_connections (closeAll connectionsToClose destroyOk (connections s)) s.

(** The same tick cut at its [await]s.  First the scan, up to the first
    [await connection.client.disconnect()]: a tick with nothing to close
    ends there. *)
Definition cleanupIdleConnections_scan (now : Z) (s : ConnectionPool)
  : ConnectionPool :=
  if isShuttingDown s then s
  else
    match filter (shouldClose s now) (connections s) with
    | [] => s
    | connectionsToClose => set_cleaning (cleaning s ++ [connectionsToClose]) s
    end.

(** The client of a connection found by the scan, as it is now: the
    object is shared with the entry of the map that holds it. *)
Definition currentClient (m : list PooledConnection)
    (connection : PooledConnection) : Client.SnowflakeClient :=
  match find (has_client (Client.ref (client connection))) m with
  | Some x => client x
  | None => client connection
  end.

(** One iteration of the second loop once its disconnect has settled. *)
Definition closeOne (destroyOk : nat -> bool) (connection : PooledConnection)
    (m : list PooledConnection) : list PooledConnection :=
  let (ok, c) := disconnect destroyOk (currentClient m connection) in
  let m1 := map (fun x => if has_client (Client.ref c) x
                          then set_client c x else x) m in
  if ok then map_delete (id connection) m1 else m1.

Fixpoint updateNth {A : Type} (k : nat) (f : A -> option A) (l : list A)
  : list A :=
  match l, k with
  | [], _ => []
  | x :: l', O => match f x with Some y => y :: l' | None => l' end
  | x :: l', S k' => x :: updateNth k' f l'
  end.

(** The [k]-th tick in progress goes on when the disconnect it awaits
    settles: the entry is deleted if the disconnect succeeded, and the
    loop moves to the next connection, or ends. *)
Definition cleanupIdleConnections_resume (k : nat) (destroyOk : nat -> bool)
    (s : ConnectionPool) : ConnectionPool :=
  match nth_error (cleaning s) k with
  | Some (connection :: rest) =>
      set_cleaning
        (updateNth k (fun _ => match rest with [] => None | _ => Some rest end)
                   (cleaning s))
        (set_connections (closeOne destroyOk connection (connections s)) s)
  | _ => s
  end.

(** ** The pool among its callers *)

(** What can happen to a pool: a call of a public method, the resumption
    of a suspended method, a timer, or a caller using a client it holds
    (which changes the fields of that client).  A tick of the cleanup timer
    is either [CleanupTimerFires], when all its disconnects settle before
    anything else happens, or [CleanupTickStarts] followed, whenever a
    disconnect settles, by [CleanupDisconnectSettles]. *)
Inductive Call :=
| Initialize (now : Z) (ids : nat -> string)
| Acquire (now : Z) (connectionId : string)
| ConnectSettles (client : nat) (hs : Client.Handshake) (now : Z)
| AcquireResumes (p : nat) (now : Z)
| Release (client : nat) (now : Z)
| AcquireTimerFires (p : nat)
| CleanupTimerFires (now : Z) (destroyOk : nat -> bool)
| Shutdown
| ShutdownResumes
| ClientChanges (c : Client.SnowflakeClient)
| CleanupTickStarts (now : Z)
| CleanupDisconnectSettles (k : nat) (destroyOk : nat -> bool).

Definition step (s : ConnectionPool) (c : Call) : ConnectionPool :=
  match c with
  | Initialize now ids => initialize now ids s
  | Acquire now connectionId => acquire now connectionId s
  | ConnectSettles r hs now => createConnection_resume r hs now s
  | AcquireResumes p now => acquire_resume p now s
  | Release r now => fst (release r now s)
  | AcquireTimerFires p => acquireTimer_fires p s
  | CleanupTimerFires now destroyOk =>
      if cleanupInterval s then cleanupIdleConnections now destroyOk s else s
  | Shutdown => shutdown s
  | ShutdownResumes => shutdown_resume s
  | ClientChanges c =>
      set_connections
        (map (fun x => if has_client (Client.ref c) x then set_client c x else x)
             (connections s)) s
  | CleanupTickStarts now =>
      if cleanupInterval s then cleanupIdleConnections_scan now s else s
  | CleanupDisconnectSettles k destroyOk =>
      cleanupIdleConnections_resume k destroyOk s
  end.

Definition run (s : ConnectionPool) (calls : list Call) : ConnectionPool :=
  fold_left step calls s.

(** ** Reading the trace *)

Definition promiseOfResolve (f : ResolveFn) : nat :=
  match f with PromiseResolve p | ResolveWrapper p => p end.

Definition promiseOfReject (f : RejectFn) : nat :=
  match f with PromiseReject p | RejectWrapper p => p end.

(** The promises whose [resolve] was called, in the order of the calls. *)
Fixpoint resolvedWaiters (evs : list Event) : list nat :=
  match evs with
  | [] => []
  | Resolved p _ :: evs' => p :: resolvedWaiters evs'
  | _ :: evs' => resolvedWaiters evs'
  end.

(** An event that is no failure, or a failure by shutdown or by the
    acquire timeout of the configuration. *)
Definition allowed (cfg : ConnectionPoolConfig) (e : Event) : Prop :=
  match e with
  | Threw _ err | Rejected _ err =>
      err = ShuttingDown \/ err = AcquireTimeout (acquireTimeout cfg)
  | Returned _ _ | Resolved _ _ => True
  end.

(** [Subseq k l]: [k] is [l] with some elements taken out. *)
Inductive Subseq {A : Type} : list A -> list A -> Prop :=
| Subseq_nil : Subseq [] []
| Subseq_skip x k l : Subseq k l -> Subseq k (x :: l)
| Subseq_keep x k l : Subseq k l -> Subseq (x :: k) (x :: l).

(** No [acquire] is called while a [createConnection] is suspended, and
    [initialize] is not called. *)
Fixpoint creationsSerialized (s : ConnectionPool) (calls : list Call) : bool :=
  match calls with
  | [] => true
  | c :: rest =>
      match c with
      | Acquire _ _ => match connecting s with [] => true | _ => false end
      | Initialize _ _ => false
      | _ => true
      end && creationsSerialized (step s c) rest
  end.

(** ** [getStats] *)

Record Stats := {
  totalConnections : Z;
  availableConnections : Z;
  inUseConnections : Z;
  waitingRequests : Z;
  oldestConnection : Z;
  newestConnection : Z
}.

(** [Math.max(...l)] and [Math.min(...l)] on a list that is not empty. *)
Definition maxOf (a : Z) (l : list Z) : Z := fold_left Z.max l a.
Definition minOf (a : Z) (l : list Z) : Z := fold_left Z.min l a.

Definition getStats (s : ConnectionPool) (now : Z) : Stats :=
  let connectionAges := map (fun conn => now - createdAt conn) (connections s) in
  {| totalConnections := size (connections s);
     availableConnections := getAvailableConnectionCount s now;
     inUseConnections := getInUseConnectionCount s;
     waitingRequests := Z.of_nat (List.length (waitingQueue s));
     oldestConnection :=
       match connectionAges with [] => 0 | a :: l => maxOf a l end;
     newestConnection :=
       match connectionAges with [] => 0 | a :: l => minOf a l end |}.

(** ** States a constructed pool can reach *)

Definition reachable (s : ConnectionPool) : Prop :=
  exists cfg pc calls, s = run (constructor cfg pc) calls.

(** A request as [waitForConnection] builds it. *)
Definition wrapped (w : WaitRequest) : Prop :=
  exists p, resolve w = ResolveWrapper p /\ reject w = RejectWrapper p.

(** ** The order of arrival in the wait queue *)

(** The request [waitForConnection] builds for the promise [p]. *)
Definition waitRequest (p : nat) (now : Z) : WaitRequest :=
  {| resolve := ResolveWrapper p; reject := RejectWrapper p; timestamp := now |}.

(** The request for which a step calls [waitForConnection], if it does:
    [acquire] reaches the call when the pool is not shutting down, no
    connection is available and the size is not below [maxConnections];
    a resumed [acquire] reaches it in its [catch]. *)
Definition enqueues (s : ConnectionPool) (c : Call) : list WaitRequest :=
  match c with
  | Acquire now _ =>
      if isShuttingDown s then []
      else
        match findAvailableConnection s now with
        | Some _ => []
        | None =>
            if size (connections s) <? maxConnections (poolConfig s)
            then []
            else [waitRequest (nextPromise s) now]
        end
  | AcquireResumes p now =>
      match find (resumes p) (resuming s) with
      | Some (_, inl _) => [waitRequest p now]
      | _ => []
      end
  | _ => []
  end.

(** The requests made during a run, in the order of the calls of
    [waitForConnection]. *)
Fixpoint enqueueHistory (s : ConnectionPool) (calls : list Call)
  : list WaitRequest :=
  match calls with
  | [] => []
  | c :: rest => enqueues s c ++ enqueueHistory (step s c) rest
  end.

(** A promise is settled once one of its two functions has been called. *)
Definition settled (p : nat) (evs : list Event) : Prop :=
  exists e, In e evs /\
            ((exists c, e = Resolved p c) \/ (exists err, e = Rejected p err)).

(** What one step does to the queue: it calls [resolve] for a prefix of
    the queue, in the order of the queue; the remainder stays in place and
    the request of the step, if it makes one, joins at the end.  Only
    [shutdown] empties the queue, and it resolves none. *)
Definition servesHead (s : ConnectionPool) (c : Call) : Prop :=
  exists served rest new,
    waitingQueue s = served ++ rest /\
    events (step s c) = events s ++ new /\
    resolvedWaiters new = map (fun w => promiseOfResolve (resolve w)) served /\
    (waitingQueue (step s c) = rest ++ enqueues s c \/
     (c = Shutdown /\ served = [] /\ waitingQueue (step s c) = [])).

(** [e] settles the promise [p]. *)
Definition settles (p : nat) (e : Event) : Prop :=
  (exists c, e = Resolved p c) \/ (exists err, e = Rejected p err).

(** From [s] to [s'] no timer is lost: a timer armed in [s] is armed in
    [s'] unless its promise is settled there, and what is settled stays
    settled. *)
Definition timersKept (s s' : ConnectionPool) : Prop :=
  (forall p, In p (timers s) ->
             In p (timers s') \/ settled p (events s')) /\
  (forall p, settled p (events s) -> settled p (events s')).

(** Every queued request has its timer armed, or its promise is settled. *)
Definition armedOrSettled (s : ConnectionPool) : Prop :=
  forall w, In w (waitingQueue s) ->
    In (promiseOfResolve (resolve w)) (timers s) \/
    settled (promiseOfResolve (resolve w)) (events s).

(** ** Relations between two states of the pool *)

(** The fields that the operations of the wait queue leave alone. *)
Definition sameSettings (s s' : ConnectionPool) : Prop :=
  poolConfig s' = poolConfig s /\
  isShuttingDown s' = isShuttingDown s /\
  cleanupInterval s' = cleanupInterval s /\
  connecting s' = connecting s /\
  resuming s' = resuming s /\
  closing s' = closing s /\
  nextPromise s' = nextPromise s /\
  nextClient s' = nextClient s.

(** [s'] is [s] after [resolve] was called for a prefix of its queue. *)
Definition served_by (s s' : ConnectionPool) : Prop :=
  exists served new,
    waitingQueue s = served ++ waitingQueue s' /\
    events s' = events s ++ new /\
    resolvedWaiters new = map (fun w => promiseOfResolve (resolve w)) served /\
    Forall (fun e => exists p c, e = Resolved p c) new.

(** The settings stay; a pool that shuts down keeps shutting down; a
    stopped cleanup timer stays stopped; the step calls [resolve] for a
    prefix of the queue, in the order of the queue, takes requests out of
    the remainder without reordering it, and adds requests at the end; the
    failures it reports are shutdown or acquire-timeout failures. *)
Definition Effect (s s' : ConnectionPool) : Prop :=
  poolConfig s' = poolConfig s /\
  (isShuttingDown s = true -> isShuttingDown s' = true) /\
  (cleanupInterval s = false -> cleanupInterval s' = false) /\
  exists served rest kept added new,
    waitingQueue s = served ++ rest /\
    Subseq kept rest /\
    waitingQueue s' = kept ++ added /\
    events s' = events s ++ new /\
    resolvedWaiters new = map (fun w => promiseOfResolve (resolve w)) served /\
    Forall (allowed (poolConfig s)) new.

(** Connections stored and connections being created, together. *)
Definition committed (s : ConnectionPool) : Z :=
  size (connections s) + Z.of_nat (List.length (connecting s)).

End Pool.

(** * The caller of [execute]: [SnowflakeResourceHandler] *)

Module Handler.

Inductive Complexity := low | medium | high.

(** [calculateQueryTimeout]; the [default] branch of the [switch] has no
    value of the type to serve. *)
Definition calculateQueryTimeout (complexity : Complexity) : Z :=
  match complexity with
  | low => 15000
  | medium => 60000
  | high => 300000
  end.

Definition getQueryPriority (complexity : Complexity) : Client.Priority :=
  match complexity with
  | low => Client.high
  | medium => Client.normal
  | high => Client.low
  end.

(** [hay.includes(needle)]. *)
Fixpoint includes (needle hay : string) : bool :=
  String.prefix needle hay ||
  match hay with
  | EmptyString => false
  | String _ hay' => includes needle hay'
  end.

(** [(hay.match(/JOIN/g) || []).length]: the matches are taken from left to
    right, each search starting after the previous match; [skip] counts
    the characters of the last match still to pass. *)
Fixpoint countJOIN_from (skip : nat) (hay : string) : nat :=
  match hay with
  | EmptyString => O
  | String _ hay' =>
      match skip with
      | S k => countJOIN_from k hay'
      | O =>
          if String.prefix "JOIN" hay
          then S (countJOIN_from 3 hay')
          else countJOIN_from 0 hay'
      end
  end.

Definition countJOIN (hay : string) : nat := countJOIN_from 0 hay.

(** The estimate of [getQueryStats], from [sqlUpper = sql.toUpperCase()]. *)
Definition estimateComplexity (sqlUpper : string) : Complexity :=
  let estimatedComplexity :=
    if includes "JOIN" sqlUpper || includes "UNION" sqlUpper
    then medium else low in
  if includes "WINDOW" sqlUpper || includes "OVER (" sqlUpper
     || includes "RECURSIVE" sqlUpper || includes "PIVOT" sqlUpper
     || (2 <? countJOIN sqlUpper)%nat
  then high else estimatedComplexity.

(** The options [handleQuery] passes to [client.execute]. *)
Definition queryOptions (sqlUpper : string) : Client.QueryOptions :=
  let complexity := estimateComplexity sqlUpper in
  {| Client.timeout := Some (calculateQueryTimeout complexity);
     Client.priority := Some (getQueryPriority complexity) |}.

End Handler.

(** * Sample values *)

Module Sample.

Definition cfg : Client.SnowflakeConfig :=
  {| Client.account := "acme"%string; Client.username := "reader"%string;
     Client.password := Some "secret"%string; Client.database := "db"%string;
     Client.schema := "public"%string; Client.warehouse := "wh"%string;
     Client.role := "analyst"%string;
     Client.authenticator := Client.snowflake |}.

(** A client that connected at time 0. *)
Definition connected (r : nat) : Client.SnowflakeClient :=
  Client.set_connection true (Client.new r cfg 0).

Definition options (t : option Z) : Client.QueryOptions :=
  {| Client.timeout := t; Client.priority := None |}.

Definition settings (max min idle acq : Z) : Pool.Partial.ConnectionPoolConfig :=
  {| Pool.Partial.maxConnections := Some max;
     Pool.Partial.minConnections := Some min;
     Pool.Partial.connectionTimeout := None;
     Pool.Partial.idleTimeout := Some idle;
     Pool.Partial.acquireTimeout := Some acq |}.

Definition pool (max min : Z) : Pool.ConnectionPool :=
  Pool.constructor cfg (settings max min 1000 100).

Definition ok : Client.Handshake := Client.HandshakeOk 5.

End Sample.

(** * Sample runs *)

Module Scenario.

Import Pool.

(** Three connections are created, released, and left idle for a minute. *)
Definition three_idle : ConnectionPool :=
  run (Sample.pool 5 2)
    [Acquire 0 "conn_0_a"; Acquire 0 "conn_0_b"; Acquire 0 "conn_0_c";
     ConnectSettles 0 Sample.ok 5; ConnectSettles 1 Sample.ok 5;
     ConnectSettles 2 Sample.ok 5;
     AcquireResumes 0 5; AcquireResumes 1 5; AcquireResumes 2 5;
     Release 0 10; Release 1 10; Release 2 10].

(** One connection, in use, and one caller waiting (promise 1). *)
Definition one_waiting : ConnectionPool :=
  run (Sample.pool 1 1)
    [Acquire 0 "conn_0_a"; ConnectSettles 0 Sample.ok 5; AcquireResumes 0 5;
     Acquire 6 "conn_6_b"].

(** Two callers wait; the connection is released. *)
Definition two_waiting : ConnectionPool :=
  step one_waiting (Acquire 7 "conn_7_c").

(** An [acquire] on the empty pool whose connection attempt has failed. *)
Definition creation_failed : ConnectionPool :=
  run (Sample.pool 1 1)
    [Acquire 0 "conn_0_a"; ConnectSettles 0 (Client.HandshakeErr 5 "refused") 5].

(** Calls made one after the other, each creation settled before the next
    call. *)
Definition one_at_a_time : list Call :=
  [Acquire 0 "conn_0_a"; ConnectSettles 0 Sample.ok 5; AcquireResumes 0 5;
   Acquire 6 "conn_6_b"; Release 0 7; Acquire 8 "conn_8_c"].

(** One connection, created, taken and released: it is idle. *)
Definition one_idle : ConnectionPool :=
  run (Sample.pool 1 1)
    [Acquire 0 "conn_0_a"; ConnectSettles 0 Sample.ok 5; AcquireResumes 0 5;
     Release 0 7].

Definition idle_connection : PooledConnection :=
  {| client := Client.set_isConnecting false
                 (Client.set_lastUsed 5
                    (Client.set_connection true
                       (Client.set_isConnecting true
                          (Client.new 0 Sample.cfg 0))));
     id := "conn_0_a"; createdAt := 5; lastUsed := 7; inUse := false |}.

(** Two connections, created, taken and released at time 10. *)
Definition two_idle : ConnectionPool :=
  run (Sample.pool 5 1)
    [Acquire 0 "conn_0_a"; Acquire 0 "conn_0_b";
     ConnectSettles 0 Sample.ok 5; ConnectSettles 1 Sample.ok 5;
     AcquireResumes 0 5; AcquireResumes 1 5; Release 0 10; Release 1 10].

(** A minute later a tick of the cleanup timer finds both idle and starts
    to disconnect the first; before that disconnect settles, [acquire]
    takes the first. *)
Definition taken_meanwhile : ConnectionPool :=
  run two_idle [CleanupTickStarts 60000; Acquire 60001 "conn_60001_c"].

(** The two connections as the scan of that tick found them. *)
Definition scanned (r : nat) (connectionId : string) : PooledConnection :=
  {| client := Client.set_isConnecting false
                 (Client.set_lastUsed 5
                    (Client.set_connection true
                       (Client.set_isConnecting true
                          (Client.new r Sample.cfg 0))));
     id := connectionId; createdAt := 5; lastUsed := 10; inUse := false |}.

End Scenario.

(** * Properties of the client *)

Module ClientProperties.

Import Client.

Lemma timerDelay_in_range ms :
  1 <= ms <= 2147483647 -> timerDelay ms = ms.
Proof.
  intros [H1 H2]. unfold timerDelay, TIMEOUT_MAX.
  destruct (Z.leb_spec 1 ms); [| lia].
  destruct (Z.leb_spec ms 2147483647); [reflexivity | lia].
Qed.

Lemma establishConnection_connected c now hs t c1 :
  establishConnection c now hs = (Settles t (inr tt), c1) ->
  connection c1 = true.
Proof.
  unfold establishConnection, rejectAfter, race.
  destruct hs; simpl;
    repeat match goal with
           | |- context [if ?b then _ else _] => destruct b
           end;
    intros H; inversion H; reflexivity.
Qed.

Lemma connect_connected c now hs t c1 :
  connect c now hs = (Settles t (inr tt), c1) -> connection c1 = true.
Proof.
  unfold connect.
  destruct (connection c && isConnectionHealthy c now) eqn:Hh.
  - intros H; inversion H; subst; simpl.
    apply andb_true_iff in Hh; tauto.
  - destruct (establishConnection _ _ hs) as [p c0] eqn:He.
    destruct p as [t0 r|]; intros H; inversion H; subst.
    simpl. eapply establishConnection_connected; eauto.
Qed.

(** The race of [execute] once the operation outlives the timer. *)
Lemma race_timer_wins start ms op :
  1 <= ms <= 2147483647 ->
  notCompletedWithin ms op ->
  race (executeQuery start op) (createTimeoutPromise start ms)
  = Settles (start + ms) (inl (QueryTimeout ms)).
Proof.
  intros Hr.
  unfold notCompletedWithin, executeQuery, createTimeoutPromise, rejectAfter.
  rewrite (timerDelay_in_range Hr).
  destruct op as [d [msg|r]|]; simpl; intros H; try reflexivity;
    destruct (Z.leb_spec (start + d) (start + ms)); (lia || reflexivity).
Qed.

Lemma execute_deadline c options now queryId hs op start c1 :
  connect c now hs = (Settles start (inr tt), c1) ->
  1 <= orDefault (timeout options) defaultTimeout <= 2147483647 ->
  notCompletedWithin (orDefault (timeout options) defaultTimeout) op ->
  fst (execute c options now queryId hs op)
  = Settles (start + orDefault (timeout options) defaultTimeout)
            (inl (QueryTimeout (orDefault (timeout options) defaultTimeout))).
Proof.
  intros Hc Hr Hop. unfold execute. rewrite Hc.
  rewrite (connect_connected _ _ _ Hc). simpl negb. cbv iota.
  rewrite race_timer_wins by assumption. reflexivity.
Qed.

(** C10.  An [execute] call without a timeout option, or with the timeout
    0, is raced against the default of 30000 ms: once the connection is
    there (at [start]), an operation that has not completed 30000 ms later
    makes the call fail at [start + 30000] with the timeout error of
    30000 ms, so the call does not run unbounded. *)
Theorem execute_default_timeout c options now queryId hs op start c1 :
  timeout options = None \/ timeout options = Some 0 ->
  connect c now hs = (Settles start (inr tt), c1) ->
  notCompletedWithin 30000 op ->
  defaultTimeout = 30000 /\
  fst (execute c options now queryId hs op)
  = Settles (start + 30000) (inl (QueryTimeout 30000)) /\
  message (QueryTimeout 30000) = "Query execution timeout after 30000ms"%string.
Proof.
  intros Ht Hc Hop.
  assert (Hd : orDefault (timeout options) defaultTimeout = 30000)
    by (destruct Ht as [-> | ->]; reflexivity).
  repeat split.
  rewrite <- Hd at 1 2. eapply execute_deadline; eauto.
  - rewrite Hd. lia.
  - rewrite Hd; assumption.
Qed.

Lemma execute_default_timeout_witness :
  fst (execute (Sample.connected 0) (Sample.options (Some 0)) 10
               "query_10_abc" Sample.ok NeverCompletes)
  = Settles 30010 (inl (QueryTimeout 30000)).
Proof.
  apply (execute_default_timeout (Sample.connected 0) (Sample.options (Some 0))
           10 "query_10_abc" Sample.ok NeverCompletes (start := 10)
           (c1 := set_lastUsed 10 (Sample.connected 0))).
  - right; reflexivity.
  - reflexivity.
  - exact I.
Defined.

(** C6, as the claim states it, fails in three ways.  With the timeout 0
    the operation has not completed within 0 ms, yet the call does not
    fail at the deadline: it returns the rows when the operation
    completes, 5 ms later.  With the timeout 2147483648 the timer fires
    after 1 ms, so the call fails long before the deadline.  And on a
    client that is not connected the timer is armed only after the
    handshake (5000 ms here), so with the timeout 100 the call made at 10
    fails at 5110, not at 110. *)
Lemma execute_timeout_zero_counterexample :
  let op := Completes 5 (inr (None, [])) in
  let call := execute (Sample.connected 0) (Sample.options (Some 0)) 10
                      "query_10_abc" Sample.ok op in
  let huge := execute (Sample.connected 0) (Sample.options (Some 2147483648))
                      10 "query_10_abc" Sample.ok NeverCompletes in
  let lazy_ := execute (Client.new 0 Sample.cfg 0) (Sample.options (Some 100))
                       10 "query_10_abc" (HandshakeOk 5000) NeverCompletes in
  connect (Sample.connected 0) 10 Sample.ok
  = (Settles 10 (inr tt), set_lastUsed 10 (Sample.connected 0)) /\
  notCompletedWithin 0 op /\
  fst call = Settles 15 (inr {| rows := []; rowCount := 0; columns := [] |}) /\
  fst call <> Settles (10 + 0) (inl (QueryTimeout 0)) /\
  fst huge = Settles 11 (inl (QueryTimeout 2147483648)) /\
  fst huge <> Settles (10 + 2147483648) (inl (QueryTimeout 2147483648)) /\
  fst lazy_ = Settles 5110 (inl (QueryTimeout 100)) /\
  fst lazy_ <> Settles (10 + 100) (inl (QueryTimeout 100)).
Proof.
  cbv zeta. split; [reflexivity |].
  split; [simpl; lia |].
  split; [reflexivity |]. split; [discriminate |].
  split; [reflexivity |]. split; [discriminate |].
  split; [reflexivity | discriminate].
Qed.

(** C6, amended.  For an [execute] call with a timeout between 1 and
    2147483647 ms: once the connection is there (at [start]), an operation
    that has not completed within the timeout makes the call fail with the
    timeout error that carries this duration, and the call settles at
    [start + timeout], whenever (if ever) the operation completes. *)
Theorem execute_timeout c ms prio now queryId hs op start c1 :
  1 <= ms <= 2147483647 ->
  connect c now hs = (Settles start (inr tt), c1) ->
  notCompletedWithin ms op ->
  fst (execute c {| timeout := Some ms; priority := prio |} now queryId hs op)
  = Settles (start + ms) (inl (QueryTimeout ms)) /\
  message (QueryTimeout ms)
  = ("Query execution timeout after " ++ showZ ms ++ "ms")%string.
Proof.
  intros Hms Hc Hop.
  assert (Hd : orDefault (Some ms) defaultTimeout = ms).
  { simpl. destruct (Z.eqb_spec ms 0); [lia | reflexivity]. }
  split; [| reflexivity].
  pose proof (execute_deadline c {| timeout := Some ms; priority := prio |}
                now queryId hs op Hc) as H.
  simpl timeout in H. rewrite Hd in H. exact (H Hms Hop).
Qed.

Lemma execute_timeout_witness :
  fst (execute (Sample.connected 0) (Sample.options (Some 100)) 10
               "query_10_abc" Sample.ok NeverCompletes)
  = Settles 110 (inl (QueryTimeout 100)) /\
  message (QueryTimeout 100) = "Query execution timeout after 100ms"%string.
Proof.
  apply (execute_timeout (Sample.connected 0) (ms := 100) None 10
           "query_10_abc" Sample.ok NeverCompletes (start := 10)
           (c1 := set_lastUsed 10 (Sample.connected 0))).
  - lia.
  - reflexivity.
  - exact I.
Defined.

End ClientProperties.

(** * Properties of the pool *)

Module PoolProperties.

Import Pool.
Import Scenario.

(** ** Construction *)

(** C7, as the claim states it, fails: a configuration with
    [maxConnections < minConnections], and one with a negative
    [minConnections], are accepted as they are. *)
Lemma constructor_accepts_any_bounds :
  exists p q,
    new Sample.cfg (Sample.settings 1 5 1000 100) = inr p /\
    maxConnections (poolConfig p) < minConnections (poolConfig p) /\
    new Sample.cfg (Sample.settings 10 (-3) 1000 100) = inr q /\
    minConnections (poolConfig q) < 0.
Proof.
  do 2 eexists. split; [reflexivity |].
  split; [simpl; lia |].
  split; [reflexivity | simpl; lia].
Qed.

(** C7, amended.  The constructor validates nothing: [new ConnectionPool]
    always yields a pool, and each setting of this pool is the value
    supplied when it is supplied and not 0, and otherwise its default (10,
    2, 30000, 300000, 10000).  So the pool satisfies
    [maxConnections >= minConnections >= 0] exactly when the values so
    obtained do, as they do when neither bound is supplied. *)
Theorem constructor_fills_defaults cfg pc :
  new cfg pc = inr (constructor cfg pc) /\
  poolConfig (constructor cfg pc)
  = {| maxConnections := orDefault (Partial.maxConnections pc) 10;
       minConnections := orDefault (Partial.minConnections pc) 2;
       connectionTimeout := orDefault (Partial.connectionTimeout pc) 30000;
       idleTimeout := orDefault (Partial.idleTimeout pc) 300000;
       acquireTimeout := orDefault (Partial.acquireTimeout pc) 10000 |} /\
  (minConnections (poolConfig (constructor cfg pc))
     <= maxConnections (poolConfig (constructor cfg pc)) /\
   0 <= minConnections (poolConfig (constructor cfg pc))
   <-> orDefault (Partial.minConnections pc) 2
         <= orDefault (Partial.maxConnections pc) 10 /\
       0 <= orDefault (Partial.minConnections pc) 2) /\
  maxConnections (poolConfig (constructor cfg Partial.empty)) = 10 /\
  minConnections (poolConfig (constructor cfg Partial.empty)) = 2.
Proof.
  repeat split; simpl in *; tauto.
Qed.

(** ** Idle reclamation *)

(** C1 at this pool: the pool runs with [minConnections = 2] and holds three
    idle connections; one tick of the cleanup timer, all disconnects
    succeeding, closes the three of them.  The guard on the size is
    evaluated for each connection before any is removed. *)
Theorem cleanup_tick_empties_pool_above_floor :
  isShuttingDown three_idle = false /\
  cleanupInterval three_idle = true /\
  minConnections (poolConfig three_idle) = 2 /\
  size (connections three_idle) = 3 /\
  getInUseConnectionCount three_idle = 0 /\
  size (connections
          (step three_idle (CleanupTimerFires 60000 (fun _ => true)))) = 0.
Proof.
  vm_compute. repeat split.
Qed.

(** ** Capacity under overlapping calls *)

(** C2, as the claim states it, fails: with [maxConnections = 1], two
    [acquire] calls made one after the other on the empty pool both pass the
    test on the size before either connection is stored; the pool ends with
    two connections, both in use. *)
Lemma overlapping_acquires_exceed_max :
  let s := run (Sample.pool 1 1)
             [Acquire 0 "conn_0_a"; Acquire 0 "conn_0_b";
              ConnectSettles 0 Sample.ok 5; ConnectSettles 1 Sample.ok 5;
              AcquireResumes 0 5; AcquireResumes 1 5] in
  maxConnections (poolConfig s) = 1 /\
  size (connections s) = 2 /\
  getInUseConnectionCount s = 2 /\
  events s = [Returned 0 0; Returned 1 1].
Proof.
  vm_compute. repeat split.
Qed.

(** ** The timer of a waiter *)

(** C4 at this pool: when the timer of the waiter fires, the caller gets the
    timeout error with the configured 100 ms, but its request stays in the
    queue: the callback looks for an entry whose [resolve] is the function
    of the promise, and the entry holds the wrapper.  The next [release]
    hands the connection to the request of the caller that is gone, and the
    connection stays in use. *)
Theorem acquire_timer_leaves_request_queued :
  let s := step one_waiting (AcquireTimerFires 1) in
  let s' := step s (Release 0 200) in
  acquireTimeout (poolConfig one_waiting) = 100 /\
  waitingQueue one_waiting
  = [{| resolve := ResolveWrapper 1; reject := RejectWrapper 1;
        timestamp := 6 |}] /\
  timers one_waiting = [1%nat] /\
  events s = events one_waiting ++ [Rejected 1 (AcquireTimeout 100)] /\
  waitingQueue s = waitingQueue one_waiting /\
  events s' = events s ++ [Resolved 1 0] /\
  getInUseConnectionCount s' = 1 /\
  getAvailableConnectionCount s' 200 = 0.
Proof.
  vm_compute. repeat split.
Qed.

(** ** Lists *)

Lemma find_first {A : Type} (test : A -> bool) l c :
  find test l = Some c ->
  exists before rest,
    l = before ++ c :: rest /\ test c = true /\
    Forall (fun x => test x = false) before.
Proof.
  induction l as [|x l IH]; simpl; [discriminate |].
  destruct (test x) eqn:Hx.
  - intros H; inversion H; subst. exists [], l. auto.
  - intros H. destruct (IH H) as (before & rest & -> & Hc & Hb).
    exists (x :: before), rest. auto.
Qed.

Lemma updateFirst_first test f before c rest :
  test c = true ->
  Forall (fun x => test x = false) before ->
  updateFirst test f (before ++ c :: rest) = before ++ f c :: rest.
Proof.
  intros Hc Hb. induction Hb as [|x before Hx _ IH]; simpl.
  - rewrite Hc; reflexivity.
  - rewrite Hx, IH; reflexivity.
Qed.

Lemma updateFirst_none test f l :
  Forall (fun x => test x = false) l -> updateFirst test f l = l.
Proof.
  induction 1 as [|x l Hx _ IH]; simpl; [reflexivity |].
  rewrite Hx, IH; reflexivity.
Qed.

Lemma updateFirst_length test f l :
  List.length (updateFirst test f l) = List.length l.
Proof.
  induction l as [|x l IH]; simpl; [reflexivity |].
  destruct (test x); simpl; congruence.
Qed.

Lemma Subseq_refl {A : Type} (l : list A) : Subseq l l.
Proof. induction l; constructor; assumption. Qed.

Lemma Subseq_nil_l {A : Type} (l : list A) : Subseq [] l.
Proof. induction l; constructor; assumption. Qed.

Lemma Subseq_splice1 {A : Type} i (l : list A) : Subseq (splice1 i l) l.
Proof.
  revert i; induction l as [|x l IH]; intros i; simpl.
  - destruct i; constructor.
  - destruct i; [apply Subseq_skip, Subseq_refl | apply Subseq_keep, IH].
Qed.

Lemma resolvedWaiters_app evs evs' :
  resolvedWaiters (evs ++ evs') = resolvedWaiters evs ++ resolvedWaiters evs'.
Proof.
  induction evs as [|e evs IH]; simpl; [reflexivity |].
  destruct e; simpl; congruence.
Qed.

(** ** What the callbacks change *)

Lemma callResolve_events f c s :
  events (callResolve f c s) = events s ++ [Resolved (promiseOfResolve f) c].
Proof. destruct f; reflexivity. Qed.

Lemma callReject_events f e s :
  events (callReject f e s) = events s ++ [Rejected (promiseOfReject f) e].
Proof. destruct f; reflexivity. Qed.

Lemma sameSettings_refl s : sameSettings s s.
Proof. repeat split. Qed.

Lemma sameSettings_trans s1 s2 s3 :
  sameSettings s1 s2 -> sameSettings s2 s3 -> sameSettings s1 s3.
Proof.
  unfold sameSettings.
  intros (?&?&?&?&?&?&?&?) (?&?&?&?&?&?&?&?). repeat split; congruence.
Qed.

Lemma callResolve_same f c s :
  sameSettings s (callResolve f c s) /\
  connections (callResolve f c s) = connections s /\
  waitingQueue (callResolve f c s) = waitingQueue s.
Proof. destruct f; repeat split. Qed.

Lemma callReject_same f e s :
  sameSettings s (callReject f e s) /\
  connections (callReject f e s) = connections s /\
  waitingQueue (callReject f e s) = waitingQueue s.
Proof. destruct f; repeat split. Qed.

(** ** [processWaitingQueue] serves a prefix of the queue, in order *)

Lemma processWaitingQueue_loop_spec queue now : forall s,
  waitingQueue s = queue ->
  let s' := processWaitingQueue_loop queue now s in
  sameSettings s s' /\
  List.length (connections s') = List.length (connections s) /\
  served_by s s'.
Proof.
  induction queue as [|request rest IH]; intros s Hq; simpl.
  - split; [apply sameSettings_refl |]. split; [reflexivity |].
    exists [], []. rewrite app_nil_r. repeat split. constructor.
  - destruct (findAvailableConnection s now) as [a|] eqn:Ha.
    + set (s2 := set_connections _ (set_waitingQueue rest s)).
      set (s3 := callResolve (resolve request) (Client.ref (client a)) s2).
      destruct (callResolve_same (resolve request) (Client.ref (client a)) s2)
        as (Hs & Hc & Hw).
      assert (Hq3 : waitingQueue s3 = rest) by (unfold s3; rewrite Hw; reflexivity).
      destruct (IH s3 Hq3) as (Hs' & Hl & served & new & Hserved & Hev & Hres & Hall).
      split.
      { eapply sameSettings_trans; [| exact Hs'].
        eapply sameSettings_trans; [| exact Hs]. repeat split. }
      split.
      { rewrite Hl. unfold s3. rewrite Hc. unfold s2. simpl.
        apply updateFirst_length. }
      exists (request :: served),
             (Resolved (promiseOfResolve (resolve request)) (Client.ref (client a))
                :: new).
      rewrite Hq3 in Hserved.
      split; [rewrite Hq; simpl; congruence |].
      split.
      { rewrite Hev. unfold s3. rewrite callResolve_events. unfold s2. simpl.
        rewrite <- app_assoc. reflexivity. }
      split; [simpl; congruence |].
      constructor; [eauto | assumption].
    + split; [apply sameSettings_refl |]. split; [reflexivity |].
      exists [], []. rewrite app_nil_r. repeat split. constructor.
Qed.

Lemma processWaitingQueue_spec now s :
  sameSettings s (processWaitingQueue now s) /\
  List.length (connections (processWaitingQueue now s))
  = List.length (connections s) /\
  served_by s (processWaitingQueue now s).
Proof. apply processWaitingQueue_loop_spec; reflexivity. Qed.

(** ** The other loops *)

Lemma rejectAll_spec e queue : forall s,
  let s' := rejectAll queue e s in
  sameSettings s s' /\
  connections s' = connections s /\
  (queue <> [] -> waitingQueue s' = []) /\
  events s'
  = events s ++ map (fun w => Rejected (promiseOfReject (reject w)) e) queue.
Proof.
  induction queue as [|request rest IH]; intros s; simpl.
  - split; [apply sameSettings_refl |]. rewrite app_nil_r. repeat split.
    intros H; contradiction H; reflexivity.
  - set (s1 := callReject (reject request) e (set_waitingQueue rest s)).
    destruct (IH s1) as (Hs & Hc & Hw & Hev).
    destruct (callReject_same (reject request) e (set_waitingQueue rest s))
      as (Hs1 & Hc1 & Hw1).
    split.
    { eapply sameSettings_trans; [| exact Hs].
      eapply sameSettings_trans; [| exact Hs1]. repeat split. }
    split; [rewrite Hc; unfold s1; rewrite Hc1; reflexivity |].
    split.
    { intros _. destruct rest as [|r rest'].
      - simpl. unfold s1. rewrite Hw1. reflexivity.
      - apply Hw. discriminate. }
    rewrite Hev. unfold s1. rewrite callReject_events. simpl.
    rewrite <- app_assoc. reflexivity.
Qed.

Lemma map_delete_length k m :
  (List.length (map_delete k m) <= List.length m)%nat.
Proof. apply filter_length_le. Qed.

Lemma map_set_length k v m :
  (List.length (map_set k v m) <= S (List.length m))%nat.
Proof.
  unfold map_set. destruct (existsb (has_id k) m).
  - rewrite length_map. lia.
  - rewrite length_app. simpl. lia.
Qed.

Lemma closeOne_length destroyOk connection m :
  (List.length (closeOne destroyOk connection m) <= List.length m)%nat.
Proof.
  unfold closeOne.
  destruct (disconnect destroyOk (currentClient m connection)) as [ok c'].
  destruct ok; [etransitivity; [apply map_delete_length |] |];
    rewrite length_map; lia.
Qed.

Lemma closeAll_length destroyOk toClose : forall m,
  (List.length (closeAll toClose destroyOk m) <= List.length m)%nat.
Proof.
  induction toClose as [|c rest IH]; intros m; simpl; [lia |].
  destruct (disconnect destroyOk (client c)) as [ok c'].
  etransitivity; [apply IH |].
  destruct ok; [etransitivity; [apply map_delete_length |] |];
    rewrite length_map; lia.
Qed.

Lemma initialize_loop_spec ids now n : forall i s,
  let s' := initialize_loop n i ids now s in
  poolConfig s' = poolConfig s /\
  isShuttingDown s' = isShuttingDown s /\
  cleanupInterval s' = cleanupInterval s /\
  connections s' = connections s /\
  waitingQueue s' = waitingQueue s /\
  events s' = events s.
Proof.
  induction n as [|n IH]; intros i s; simpl; [repeat split |].
  destruct (IH (S i) (createConnection ByInitialize (ids i) now s))
    as (H1 & H2 & H3 & H4 & H5 & H6).
  rewrite H1, H2, H3, H4, H5, H6. repeat split.
Qed.

(** ** What one step changes *)

(** A step that leaves the queue in place and reports [new], none of which
    is a call of [resolve]. *)
Lemma Effect_report s s' added new :
  poolConfig s' = poolConfig s ->
  isShuttingDown s' = isShuttingDown s ->
  cleanupInterval s' = cleanupInterval s ->
  waitingQueue s' = waitingQueue s ++ added ->
  events s' = events s ++ new ->
  resolvedWaiters new = [] ->
  Forall (allowed (poolConfig s)) new ->
  Effect s s'.
Proof.
  intros Hc Hs Ht Hq He Hr Ha. split; [assumption |].
  split; [congruence |]. split; [congruence |].
  exists [], (waitingQueue s), (waitingQueue s), added, new.
  repeat split; try assumption. apply Subseq_refl.
Qed.

Lemma Effect_quiet s s' :
  poolConfig s' = poolConfig s ->
  isShuttingDown s' = isShuttingDown s ->
  cleanupInterval s' = cleanupInterval s ->
  waitingQueue s' = waitingQueue s ->
  events s' = events s ->
  Effect s s'.
Proof.
  intros. apply Effect_report with (added := []) (new := []);
    rewrite ?app_nil_r; auto.
Qed.

Lemma waitForConnection_Effect p now s s0 :
  poolConfig s = poolConfig s0 ->
  isShuttingDown s = isShuttingDown s0 ->
  cleanupInterval s = cleanupInterval s0 ->
  waitingQueue s = waitingQueue s0 ->
  events s = events s0 ->
  Effect s0 (waitForConnection p now s).
Proof.
  intros.
  apply Effect_report
    with (added := [{| resolve := ResolveWrapper p; reject := RejectWrapper p;
                       timestamp := now |}]) (new := []);
    simpl; rewrite ?app_nil_r; auto; congruence.
Qed.

Lemma acquire_Effect now connectionId s : Effect s (acquire now connectionId s).
Proof.
  unfold acquire.
  destruct (isShuttingDown (set_nextPromise (S (nextPromise s)) s)) eqn:Hsd.
  - apply Effect_report with (added := []) (new := [Threw (nextPromise s) ShuttingDown]);
      rewrite ?app_nil_r; try reflexivity.
    repeat constructor.
  - destruct (findAvailableConnection _ now) as [a|].
    + apply Effect_report
        with (added := [])
             (new := [Returned (nextPromise s) (Client.ref (client a))]);
        rewrite ?app_nil_r; try reflexivity.
      repeat constructor.
    + destruct (_ <? _).
      * apply Effect_quiet; reflexivity.
      * apply waitForConnection_Effect; reflexivity.
Qed.

Lemma createConnection_resume_Effect r hs now s :
  Effect s (createConnection_resume r hs now s).
Proof.
  unfold createConnection_resume.
  destruct (find (creates r) (connecting s)) as [cr|];
    [| apply Effect_quiet; reflexivity].
  destruct (Client.connect _ _ hs) as [[t [e|u]|] c];
    destruct (owner cr); apply Effect_quiet; reflexivity.
Qed.

Lemma acquire_resume_Effect p now s : Effect s (acquire_resume p now s).
Proof.
  unfold acquire_resume.
  destruct (find (resumes p) (resuming s)) as [[q [e|c]]|];
    [| | apply Effect_quiet; reflexivity].
  - apply waitForConnection_Effect; reflexivity.
  - apply Effect_report with (added := []) (new := [Returned p c]);
      rewrite ?app_nil_r; try reflexivity.
    repeat constructor.
Qed.

Lemma Forall_resolved_allowed cfg new :
  Forall (fun e => exists p c, e = Resolved p c) new -> Forall (allowed cfg) new.
Proof.
  apply Forall_impl. intros e (p & c & ->). exact I.
Qed.

Lemma release_Effect r now s : Effect s (fst (release r now s)).
Proof.
  unfold release.
  destruct (findConnectionByClient s r) as [conn|]; simpl;
    [| apply Effect_quiet; reflexivity].
  match goal with |- Effect _ (processWaitingQueue _ ?s1) =>
    destruct (processWaitingQueue_spec now s1)
      as ((Hc & Hs & Ht & _) & _ & served & new & Hq & He & Hr & Ha);
    set (s' := processWaitingQueue now s1) in *
  end.
  simpl in *.
  split; [assumption |]. split; [congruence |]. split; [congruence |].
  exists served, (waitingQueue s'), (waitingQueue s'), [], new.
  rewrite app_nil_r.
  split; [assumption |]. split; [apply Subseq_refl |].
  split; [reflexivity |]. split; [assumption |]. split; [assumption |].
  apply Forall_resolved_allowed; assumption.
Qed.

Lemma acquireTimer_fires_Effect p s : Effect s (acquireTimer_fires p s).
Proof.
  unfold acquireTimer_fires.
  destruct (existsb (Nat.eqb p) (timers s)); [| apply Effect_quiet; reflexivity].
  destruct (findIndex _ (waitingQueue (clearTimeout p s))) as [i|]; simpl.
  - split; [reflexivity |]. split; [auto |]. split; [auto |].
    exists [], (waitingQueue s), (splice1 i (waitingQueue s)), [],
           [Rejected p (AcquireTimeout (acquireTimeout (poolConfig s)))].
    rewrite app_nil_r. repeat split.
    + apply Subseq_splice1.
    + constructor; [right; reflexivity | constructor].
  - apply Effect_report
      with (added := [])
           (new := [Rejected p (AcquireTimeout (acquireTimeout (poolConfig s)))]);
      rewrite ?app_nil_r; try reflexivity.
    constructor; [right; reflexivity | constructor].
Qed.

Lemma Forall_map_rejected cfg (queue : list WaitRequest) :
  Forall (allowed cfg)
    (map (fun w => Rejected (promiseOfReject (reject w)) ShuttingDown) queue).
Proof.
  induction queue; simpl; constructor; [left; reflexivity | assumption].
Qed.

Lemma resolvedWaiters_map_rejected e (queue : list WaitRequest) :
  resolvedWaiters (map (fun w => Rejected (promiseOfReject (reject w)) e) queue)
  = [].
Proof. induction queue; simpl; auto. Qed.

(** [shutdown] up to its [await]: the flag is set, the timer stopped, the
    queue emptied, and [reject] called with the shutdown error for every
    request that was queued. *)
Lemma shutdown_spec s :
  poolConfig (shutdown s) = poolConfig s /\
  isShuttingDown (shutdown s) = true /\
  cleanupInterval (shutdown s) = false /\
  waitingQueue (shutdown s) = [] /\
  connections (shutdown s) = connections s /\
  closing (shutdown s) = S (closing s) /\
  events (shutdown s)
  = events s ++ map (fun w => Rejected (promiseOfReject (reject w)) ShuttingDown)
                    (waitingQueue s).
Proof.
  unfold shutdown.
  set (s1 := set_isShuttingDown true s).
  set (s2 := if cleanupInterval s1 then set_cleanupInterval false s1 else s1).
  assert (H2 : poolConfig s2 = poolConfig s /\ isShuttingDown s2 = true /\
               cleanupInterval s2 = false /\ waitingQueue s2 = waitingQueue s /\
               connections s2 = connections s /\ closing s2 = closing s /\
               events s2 = events s).
  { unfold s2. destruct (cleanupInterval s1) eqn:Hc; repeat split; exact Hc. }
  destruct H2 as (Hcfg & Hsd & Hci & Hq & Hconn & Hcl & Hev).
  destruct (rejectAll_spec ShuttingDown (waitingQueue s2) s2)
    as ((Hcfg' & Hsd' & Hci' & _ & _ & Hcl' & _) & Hconn' & Hq' & Hev').
  simpl. repeat split; try congruence.
  destruct (waitingQueue s2) eqn:Hw.
  - simpl. assumption.
  - apply Hq'. discriminate.
Qed.

Lemma shutdown_Effect s : Effect s (shutdown s).
Proof.
  destruct (shutdown_spec s) as (Hcfg & Hsd & Hci & Hq & _ & _ & Hev).
  split; [assumption |]. split; [auto |]. split; [auto |].
  exists [], (waitingQueue s), [], [],
         (map (fun w => Rejected (promiseOfReject (reject w)) ShuttingDown)
              (waitingQueue s)).
  split; [reflexivity |]. split; [apply Subseq_nil_l |].
  split; [assumption |]. split; [assumption |].
  split; [apply resolvedWaiters_map_rejected | apply Forall_map_rejected].
Qed.

Lemma step_Effect s c : Effect s (step s c).
Proof.
  destruct c; simpl.
  - destruct (initialize_loop_spec ids now
                (Z.to_nat (minConnections (poolConfig s))) 0 s)
      as (H1 & H2 & H3 & _ & H5 & H6).
    apply Effect_quiet; assumption.
  - apply acquire_Effect.
  - apply createConnection_resume_Effect.
  - apply acquire_resume_Effect.
  - apply release_Effect.
  - apply acquireTimer_fires_Effect.
  - unfold cleanupIdleConnections.
    destruct (cleanupInterval s), (isShuttingDown s);
      apply Effect_quiet; reflexivity.
  - apply shutdown_Effect.
  - unfold shutdown_resume. destruct (closing s); apply Effect_quiet; reflexivity.
  - apply Effect_quiet; reflexivity.
  - unfold cleanupIdleConnections_scan.
    destruct (cleanupInterval s), (isShuttingDown s);
      try (apply Effect_quiet; reflexivity).
    destruct (filter _ _); apply Effect_quiet; reflexivity.
  - unfold cleanupIdleConnections_resume.
    destruct (nth_error _ k) as [[|x rest]|]; apply Effect_quiet; reflexivity.
Qed.

(** ** [release] *)

Lemma find_none_has_client r (m : list PooledConnection) :
  (forall c, In c m -> Client.ref (client c) <> r) ->
  find (has_client r) m = None.
Proof.
  intros H. induction m as [|x m IH]; simpl; [reflexivity |].
  unfold has_client at 1.
  destruct (Nat.eqb_spec (Client.ref (client x)) r) as [e|_].
  - exfalso. apply (H x); [left; reflexivity | assumption].
  - apply IH. intros c Hc. apply H. right; assumption.
Qed.

Lemma Forall_has_client_false r (before : list PooledConnection) :
  (forall c, In c before -> Client.ref (client c) <> r) ->
  Forall (fun x => has_client r x = false) before.
Proof.
  intros H. apply Forall_forall. intros c Hc.
  apply Nat.eqb_neq. apply H; assumption.
Qed.

Lemma find_app_first {A : Type} (test : A -> bool) before c rest :
  test c = true ->
  Forall (fun x => test x = false) before ->
  find test (before ++ c :: rest) = Some c.
Proof.
  intros Hc Hb. induction Hb as [|x before Hx _ IH]; simpl.
  - rewrite Hc; reflexivity.
  - rewrite Hx; assumption.
Qed.

(** C9.  [release] never fails.  With a client that no connection of the
    pool holds, it returns the pool as it was.  Otherwise the first
    connection that holds the client gets [inUse = false] and
    [lastUsed = now], every other field of the pool and every other
    connection staying as it was, and then the wait queue is processed. *)
Theorem release_frame r now s :
  snd (release r now s) = inr tt /\
  ((forall c, In c (connections s) -> Client.ref (client c) <> r) ->
   fst (release r now s) = s) /\
  (forall before conn rest,
     connections s = before ++ conn :: rest ->
     Client.ref (client conn) = r ->
     (forall c, In c before -> Client.ref (client c) <> r) ->
     fst (release r now s)
     = processWaitingQueue now
         (set_connections
            (before ++
             {| client := client conn; id := id conn;
                createdAt := createdAt conn; lastUsed := now;
                inUse := false |} :: rest) s)).
Proof.
  split; [| split].
  - unfold release. destruct (findConnectionByClient s r); reflexivity.
  - intros H. unfold release, findConnectionByClient.
    rewrite find_none_has_client by exact H. reflexivity.
  - intros before conn rest Hm Hr Hb.
    assert (Hc : has_client r conn = true)
      by (unfold has_client; apply Nat.eqb_eq; assumption).
    assert (Hf : Forall (fun x => has_client r x = false) before)
      by (apply Forall_has_client_false; exact Hb).
    unfold release, findConnectionByClient. rewrite Hm.
    rewrite find_app_first by assumption. simpl fst.
    rewrite updateFirst_first by assumption. reflexivity.
Qed.

Lemma release_frame_witness :
  fst (release 7 200 one_waiting) = one_waiting /\
  fst (release 0 200 one_waiting)
  = processWaitingQueue 200
      (set_connections
         [{| client := Client.set_isConnecting false
                         (Client.set_lastUsed 5
                            (Client.set_connection true
                               (Client.set_isConnecting true
                                  (Client.new 0 Sample.cfg 0))));
             id := "conn_0_a"; createdAt := 5; lastUsed := 200;
             inUse := false |}] one_waiting).
Proof.
  split.
  - apply (release_frame 7 200 one_waiting).
    simpl. intros c [<- | []]. discriminate.
  - apply (proj2 (proj2 (release_frame 0 200 one_waiting)) []
             {| client := Client.set_isConnecting false
                            (Client.set_lastUsed 5
                               (Client.set_connection true
                                  (Client.set_isConnecting true
                                     (Client.new 0 Sample.cfg 0))));
                id := "conn_0_a"; createdAt := 5; lastUsed := 5;
                inUse := true |} []).
    + reflexivity.
    + reflexivity.
    + intros c [].
Defined.

(** ** The order of service *)

Lemma release_serves_head r now s conn request queue :
  findConnectionByClient s r = Some conn ->
  Client.isConnected (client conn) now = true ->
  waitingQueue s = request :: queue ->
  exists c served new,
    events (fst (release r now s))
    = events s ++ Resolved (promiseOfResolve (resolve request)) c :: new /\
    queue = served ++ waitingQueue (fst (release r now s)) /\
    resolvedWaiters new = map (fun w => promiseOfResolve (resolve w)) served.
Proof.
  intros Hfind Hconn Hq. unfold release. rewrite Hfind. simpl fst.
  unfold findConnectionByClient in Hfind.
  destruct (find_first _ _ Hfind) as (before & rest & Hm & Hc & Hb).
  rewrite Hm. rewrite updateFirst_first by assumption.
  set (s1 := set_connections _ s).
  unfold processWaitingQueue.
  replace (waitingQueue s1) with (request :: queue) by (symmetry; exact Hq).
  simpl processWaitingQueue_loop.
  destruct (findAvailableConnection s1 now) as [a|] eqn:Ha.
  - set (s3 := callResolve _ _ _).
    assert (Hq3 : waitingQueue s3 = queue).
    { unfold s3. destruct (resolve request); reflexivity. }
    destruct (processWaitingQueue_loop_spec now s3 Hq3)
      as (_ & _ & served & new & Hserved & Hev & Hres & _).
    exists (Client.ref (client a)), served, new.
    split; [| split; [congruence | assumption]].
    rewrite Hev. unfold s3. rewrite callResolve_events. simpl.
    rewrite <- app_assoc. reflexivity.
  - exfalso. unfold findAvailableConnection in Ha.
    pose proof (find_none _ _ Ha
                  (set_lastUsed now (set_inUse false conn))) as Hn.
    assert (Hin : In (set_lastUsed now (set_inUse false conn))
                     (connections s1)).
    { unfold s1. simpl. apply in_or_app. right. left. reflexivity. }
    specialize (Hn Hin). unfold available, set_lastUsed, set_inUse in Hn.
    cbn [inUse client negb andb] in Hn.
    rewrite Hconn in Hn. discriminate.
Qed.

(** ** Runs *)

Lemma run_app s calls calls' :
  run s (calls ++ calls') = run (run s calls) calls'.
Proof. apply fold_left_app. Qed.

Lemma run_Effect calls : forall s,
  poolConfig (run s calls) = poolConfig s /\
  (isShuttingDown s = true -> isShuttingDown (run s calls) = true) /\
  (cleanupInterval s = false -> cleanupInterval (run s calls) = false) /\
  exists new,
    events (run s calls) = events s ++ new /\
    Forall (allowed (poolConfig s)) new.
Proof.
  induction calls as [|c calls IH]; intros s; simpl.
  - repeat split; auto. exists []. rewrite app_nil_r. split; constructor.
  - destruct (step_Effect s c)
      as (Hc & Hs & Ht & _ & _ & _ & _ & new & _ & _ & _ & He & _ & Ha).
    destruct (IH (step s c)) as (Hc' & Hs' & Ht' & new' & He' & Ha').
    split; [congruence |]. split; [auto |]. split; [auto |].
    exists (new ++ new'). split.
    + rewrite He', He, app_assoc. reflexivity.
    + apply Forall_app. split; [assumption |]. rewrite <- Hc. assumption.
Qed.

(** ** Shutdown *)

Lemma acquire_while_shutting_down now connectionId s :
  isShuttingDown s = true ->
  acquire now connectionId s
  = emit (Threw (nextPromise s) ShuttingDown)
         (set_nextPromise (S (nextPromise s)) s).
Proof.
  intros H. unfold acquire. simpl isShuttingDown. rewrite H. reflexivity.
Qed.

(** Take a pool on which [shutdown] is called, anything that happens
    while it awaits the disconnects, and its resumption.  At the moment it
    resolves, the set of connections is empty, the cleanup timer is
    stopped, and [reject] has been called with the shutdown error for
    every request that was queued when [shutdown] began.  From then on,
    whatever happens, the timer stays stopped (a tick does nothing) and
    every [acquire] fails at once with the shutdown error, creating
    nothing and queueing nothing.  This says nothing of the set of
    connections after that moment. *)
Lemma shutdown_is_final s between after now connectionId destroyOk :
  closing (run (step s Shutdown) between) <> 0%nat ->
  let s1 := step (run (step s Shutdown) between) ShutdownResumes in
  let s2 := run s1 after in
  connections s1 = [] /\
  cleanupInterval s1 = false /\
  isShuttingDown s1 = true /\
  (forall w, In w (waitingQueue s) ->
     In (Rejected (promiseOfReject (reject w)) ShuttingDown) (events s1)) /\
  cleanupInterval s2 = false /\
  step s2 (CleanupTimerFires now destroyOk) = s2 /\
  step s2 (Acquire now connectionId)
  = emit (Threw (nextPromise s2) ShuttingDown)
         (set_nextPromise (S (nextPromise s2)) s2).
Proof.
  intros Hcl s1 s2.
  destruct (shutdown_spec s) as (_ & Hsd & Hci & _ & _ & _ & Hev).
  destruct (run_Effect between (step s Shutdown))
    as (_ & Hsd' & Hci' & new & Hev' & _).
  specialize (Hsd' Hsd). specialize (Hci' Hci).
  assert (H1 : connections s1 = [] /\ cleanupInterval s1 = false /\
               isShuttingDown s1 = true /\
               events s1 = events (run (step s Shutdown) between)).
  { unfold s1. change (step ?x ShutdownResumes) with (shutdown_resume x).
    unfold shutdown_resume.
    destruct (closing (run (step s Shutdown) between)); [contradiction |].
    repeat split; assumption. }
  destruct H1 as (Hconn & Hci1 & Hsd1 & Hev1).
  destruct (run_Effect after s1) as (_ & Hsd2 & Hci2 & _).
  fold s2 in Hsd2, Hci2.
  split; [assumption |]. split; [assumption |]. split; [assumption |].
  split.
  { intros w Hw. rewrite Hev1, Hev'. simpl step. rewrite Hev.
    apply in_or_app. left. apply in_or_app. right.
    apply in_map_iff. exists w. auto. }
  split; [auto |].
  split.
  - simpl. rewrite (Hci2 Hci1). reflexivity.
  - simpl. apply acquire_while_shutting_down. auto.
Qed.

Lemma shutdown_is_final_witness :
  let s1 := step (run (step two_waiting Shutdown) []) ShutdownResumes in
  let s2 := run s1 [] in
  connections s1 = [] /\
  cleanupInterval s1 = false /\
  isShuttingDown s1 = true /\
  (forall w, In w (waitingQueue two_waiting) ->
     In (Rejected (promiseOfReject (reject w)) ShuttingDown) (events s1)) /\
  cleanupInterval s2 = false /\
  step s2 (CleanupTimerFires 300 (fun _ => true)) = s2 /\
  step s2 (Acquire 300 "conn_300_d")
  = emit (Threw (nextPromise s2) ShuttingDown)
         (set_nextPromise (S (nextPromise s2)) s2).
Proof.
  refine (shutdown_is_final two_waiting [] [] 300 "conn_300_d"
            (fun _ => true) _).
  vm_compute. discriminate.
Defined.

(** C5.  The set of connections is not empty after [shutdown] has
    resolved when a creation was in flight.  On a pool with room for one
    connection, [acquire] starts a creation and [shutdown] is called while
    [client.connect()] is pending: [shutdown] finds no connection to
    close, clears the empty set and resolves.  Then the creation completes:
    [createConnection] stores the connection and the suspended [acquire]
    marks it in use and returns its client, in a pool that is shut down;
    nothing ever closes that connection.  If the creation fails instead,
    the suspended [acquire] queues a request after all requests were
    rejected, and only its timer settles it. *)
Theorem shutdown_misses_creation_in_flight :
  let s0 := step (Sample.pool 1 1) (Acquire 0 "conn_0_a") in
  let s1 := run s0 [Shutdown; ShutdownResumes] in
  let s2 := run s1 [ConnectSettles 0 Sample.ok 5; AcquireResumes 0 5] in
  let s3 := run s1 [ConnectSettles 0 (Client.HandshakeErr 5 "refused") 5;
                    AcquireResumes 0 5] in
  (connections s0 = [] /\ List.length (connecting s0) = 1%nat) /\
  (closing s1 = 0%nat /\ isShuttingDown s1 = true /\
   cleanupInterval s1 = false /\ connections s1 = [] /\ events s1 = []) /\
  (isShuttingDown s2 = true /\
   map id (connections s2) = ["conn_0_a"%string] /\
   map inUse (connections s2) = [true] /\
   map (fun c => Client.isConnected (client c) 5) (connections s2) = [true] /\
   totalConnections (getStats s2 5) = 1 /\
   events s2 = [Returned 0 0]) /\
  (isShuttingDown s3 = true /\
   waitingQueue s3 = [waitRequest 0 5] /\
   events s3 = [] /\
   events (step s3 (AcquireTimerFires 0)) = [Rejected 0 (AcquireTimeout 100)]).
Proof. vm_compute. repeat split. Qed.

(** ** Capacity when creations do not overlap *)

Lemma find_filter_shorter {A : Type} (test : A -> bool) l x :
  find test l = Some x ->
  (S (List.length (filter (fun y => negb (test y)) l)) <= List.length l)%nat.
Proof.
  induction l as [|y l IH]; simpl; [discriminate |].
  destruct (test y) eqn:Hy; simpl.
  - intros _. pose proof (filter_length_le (fun y => negb (test y)) l). lia.
  - intros H. specialize (IH H). lia.
Qed.

Lemma shutdown_connecting s : connecting (shutdown s) = connecting s.
Proof.
  unfold shutdown.
  match goal with |- connecting (set_closing _ (rejectAll ?q ?e ?s2)) = _ =>
    destruct (rejectAll_spec e q s2) as ((_ & _ & _ & H & _) & _)
  end.
  change (connecting (set_closing ?n ?x)) with (connecting x).
  rewrite H. destruct (cleanupInterval _); reflexivity.
Qed.

Lemma getInUseConnectionCount_le_size s :
  getInUseConnectionCount s <= size (connections s).
Proof.
  unfold getInUseConnectionCount, size.
  pose proof (filter_length_le inUse (connections s)). lia.
Qed.

Lemma step_committed s c :
  creationsSerialized s [c] = true ->
  committed s <= maxConnections (poolConfig s) ->
  committed (step s c) <= maxConnections (poolConfig s).
Proof.
  unfold committed, size. intros Hg Hi.
  destruct c as [now ids | now connectionId | r hs now | p now | r now | p
                 | now destroyOk | | | c | now | k destroyOk];
    simpl in Hg; simpl step.
  - discriminate.
  - unfold acquire.
    destruct (connecting s) as [|cr l] eqn:Hcg; [| discriminate].
    destruct (isShuttingDown _); [simpl; rewrite Hcg; exact Hi |].
    destruct (findAvailableConnection _ now).
    + simpl. rewrite updateFirst_length, Hcg. exact Hi.
    + destruct (Z.ltb_spec (size (connections (set_nextPromise (S (nextPromise s)) s)))
                  (maxConnections (poolConfig (set_nextPromise (S (nextPromise s)) s)))) as [Hlt|Hge].
      * unfold size in Hlt. simpl in *. rewrite Hcg. simpl. lia.
      * simpl. rewrite Hcg. exact Hi.
  - unfold createConnection_resume.
    destruct (find (creates r) (connecting s)) as [cr|] eqn:Hf; [| exact Hi].
    pose proof (find_filter_shorter _ _ Hf) as Hlen.
    destruct (Client.connect _ _ hs) as [[t [e|u]|] c]; [| | exact Hi].
    + destruct (owner cr); simpl; lia.
    + pose proof (map_set_length (connectionId cr)
                    {| client := c; id := connectionId cr; createdAt := now;
                       lastUsed := now; inUse := false |} (connections s)).
      destruct (owner cr); simpl; lia.
  - unfold acquire_resume.
    destruct (find (resumes p) (resuming s)) as [[q [e|c]]|]; [| | exact Hi].
    + exact Hi.
    + simpl. rewrite updateFirst_length. exact Hi.
  - unfold release.
    destruct (findConnectionByClient s r); [| exact Hi]. simpl fst.
    match goal with |- context [processWaitingQueue now ?s1] =>
      destruct (processWaitingQueue_spec now s1)
        as ((_ & _ & _ & Hcg & _) & Hlen & _)
    end.
    rewrite Hlen, Hcg. simpl. rewrite updateFirst_length. exact Hi.
  - unfold acquireTimer_fires.
    destruct (existsb _ _); [| exact Hi].
    destruct (findIndex _ _); exact Hi.
  - unfold cleanupIdleConnections.
    destruct (cleanupInterval s); [| exact Hi].
    destruct (isShuttingDown s); [exact Hi |]. simpl.
    pose proof (closeAll_length destroyOk
                  (filter (shouldClose s now) (connections s)) (connections s)).
    lia.
  - destruct (shutdown_spec s) as (_ & _ & _ & _ & Hc & _).
    rewrite Hc, shutdown_connecting. exact Hi.
  - unfold shutdown_resume. destruct (closing s); [exact Hi |]. simpl. lia.
  - simpl. rewrite length_map. exact Hi.
  - unfold cleanupIdleConnections_scan.
    destruct (cleanupInterval s); [| exact Hi].
    destruct (isShuttingDown s); [exact Hi |].
    destruct (filter _ _); exact Hi.
  - unfold cleanupIdleConnections_resume.
    destruct (nth_error _ k) as [[|x rest]|]; try exact Hi.
    simpl. pose proof (closeOne_length destroyOk x (connections s)). lia.
Qed.

Lemma run_committed calls : forall s,
  creationsSerialized s calls = true ->
  committed s <= maxConnections (poolConfig s) ->
  committed (run s calls) <= maxConnections (poolConfig s).
Proof.
  induction calls as [|c calls IH]; intros s Hg Hi; [exact Hi |].
  simpl in Hg. apply andb_true_iff in Hg. destruct Hg as [Hc Hrest].
  simpl run.
  destruct (step_Effect s c) as (Hcfg & _).
  rewrite <- Hcfg. apply IH; [assumption |]. rewrite Hcfg.
  apply step_committed; [| assumption].
  simpl. rewrite Hc. reflexivity.
Qed.

Lemma creationsSerialized_firstn n : forall calls s,
  creationsSerialized s calls = true ->
  creationsSerialized s (firstn n calls) = true.
Proof.
  induction n as [|n IH]; intros calls s H; [reflexivity |].
  destruct calls as [|c calls]; [reflexivity |].
  simpl in *. apply andb_true_iff in H. destruct H as [Hc Hrest].
  rewrite Hc. simpl. apply IH. assumption.
Qed.

(** C2, amended.  Take a pool in which the connections stored and the
    connections being created are together at most [maxConnections], and
    any run without [initialize] in which no [acquire] is called while a
    creation is suspended.  Then at every point of the run the number of
    connections, and so the number of connections in use, is at most
    [maxConnections].  In any state, [acquire] starts a creation only
    when no connection is available and the size is below
    [maxConnections]; otherwise it throws (shutdown), returns an existing
    connection, or joins the wait queue. *)
Theorem capacity_when_creations_are_serialized :
  (forall s calls n,
     creationsSerialized s calls = true ->
     committed s <= maxConnections (poolConfig s) ->
     let s' := run s (firstn n calls) in
     maxConnections (poolConfig s') = maxConnections (poolConfig s) /\
     size (connections s') <= maxConnections (poolConfig s) /\
     getInUseConnectionCount s' <= maxConnections (poolConfig s)) /\
  (forall s now connectionId,
     let s' := acquire now connectionId s in
     (connecting s' <> connecting s ->
      isShuttingDown s = false /\
      findAvailableConnection s now = None /\
      size (connections s) < maxConnections (poolConfig s)) /\
     (connecting s' = connecting s ->
      events s' = events s ++ [Threw (nextPromise s) ShuttingDown] \/
      (exists a, findAvailableConnection s now = Some a /\
                 events s' = events s ++
                             [Returned (nextPromise s) (Client.ref (client a))]) \/
      waitingQueue s'
      = waitingQueue s ++
        [{| resolve := ResolveWrapper (nextPromise s);
            reject := RejectWrapper (nextPromise s); timestamp := now |}])).
Proof.
  split.
  - intros s calls n Hg Hi s'.
    pose proof (run_committed (firstn n calls) s
                  (creationsSerialized_firstn n calls s Hg) Hi) as Hc.
    fold s' in Hc.
    destruct (run_Effect (firstn n calls) s) as (Hcfg & _). fold s' in Hcfg.
    pose proof (getInUseConnectionCount_le_size s').
    unfold committed in Hc.
    split; [congruence |]. split; lia.
  - intros s now connectionId. unfold acquire.
    change (isShuttingDown (set_nextPromise (S (nextPromise s)) s))
      with (isShuttingDown s).
    change (findAvailableConnection (set_nextPromise (S (nextPromise s)) s) now)
      with (findAvailableConnection s now).
    change (size (connections (set_nextPromise (S (nextPromise s)) s)))
      with (size (connections s)).
    change (poolConfig (set_nextPromise (S (nextPromise s)) s))
      with (poolConfig s).
    destruct (isShuttingDown s).
    { simpl. split; [intros H; contradiction H; reflexivity | left; reflexivity]. }
    destruct (findAvailableConnection s now) as [a|].
    { simpl. split; [intros H; contradiction H; reflexivity |].
      intros _. right. left. exists a. split; reflexivity. }
    destruct (Z.ltb_spec (size (connections s)) (maxConnections (poolConfig s))).
    + simpl. split; [auto |].
      intros Heq. exfalso.
      apply (f_equal (@List.length Creation)) in Heq.
      rewrite length_app in Heq. simpl in Heq. lia.
    + simpl. split; [intros Hne; contradiction Hne; reflexivity |].
      intros _. right. right. reflexivity.
Qed.

Lemma capacity_when_creations_are_serialized_witness :
  let s' := run (Sample.pool 1 1) (firstn 6 one_at_a_time) in
  maxConnections (poolConfig s') = maxConnections (poolConfig (Sample.pool 1 1)) /\
  size (connections s') <= maxConnections (poolConfig (Sample.pool 1 1)) /\
  getInUseConnectionCount s' <= maxConnections (poolConfig (Sample.pool 1 1)).
Proof.
  refine (proj1 capacity_when_creations_are_serialized (Sample.pool 1 1)
            one_at_a_time 6%nat _ _).
  - vm_compute. reflexivity.
  - vm_compute. discriminate.
Defined.

End PoolProperties.

(** * Further properties of the client *)

Module ClientFacts.

Import Client.

Lemma race_settles_by {E A : Type} (p : Promise E A) t e :
  exists t' r, race p (Settles t (inl e)) = Settles t' r /\ t' <= t.
Proof.
  destruct p as [tp rp|]; simpl.
  - destruct (Z.leb_spec tp t).
    + exists tp, rp. split; [reflexivity | assumption].
    + exists t, (inl e). split; [reflexivity | lia].
  - exists t, (inl e). split; [reflexivity | lia].
Qed.

Lemma establishConnection_settles c now hs :
  exists t r c',
    establishConnection c now hs = (Settles t r, c') /\
    t <= now + 10000 /\
    isConnecting c' = isConnecting c /\
    activeQueries c' = activeQueries c /\
    match r with
    | inr _ => connection c' = true
    | inl _ => connection c' = false
    end.
Proof.
  unfold establishConnection, rejectAfter.
  change (timerDelay 10000) with 10000.
  destruct hs as [d | d msg |]; simpl.
  - destruct (Z.leb_spec (now + 10000) (now + d)).
    + exists (now + 10000), (inl ConnectTimeout). eexists. repeat split. lia.
    + exists (now + d), (inr tt). eexists. repeat split. lia.
  - destruct (Z.leb_spec (now + 10000) (now + d)).
    + exists (now + 10000), (inl ConnectTimeout). eexists. repeat split. lia.
    + exists (now + d), (inl (ConnectFailed msg)). eexists. repeat split. lia.
  - exists (now + 10000), (inl ConnectTimeout). eexists. repeat split. lia.
Qed.

(** X1.  [connect] always settles, at most ten seconds after the call,
    whatever the SDK does; when it succeeds the client holds a connection,
    and when it fails the connection is reset and no attempt is left
    marked in flight.  The set of active queries is not touched. *)
Theorem connect_settles_within_ten_seconds c now hs :
  exists t r c',
    connect c now hs = (Settles t r, c') /\
    t <= now + 10000 /\
    activeQueries c' = activeQueries c /\
    match r with
    | inr _ => connection c' = true
    | inl _ => connection c' = false /\ isConnecting c' = false
    end.
Proof.
  unfold connect.
  destruct (connection c && isConnectionHealthy c now) eqn:Hh.
  - exists now, (inr tt), (set_lastUsed now c).
    apply andb_true_iff in Hh. repeat split; try tauto. lia.
  - match goal with
    | |- context [establishConnection ?c0 ?start hs] =>
        destruct (establishConnection_settles c0 start hs)
          as (t & r & c' & He & Ht & _ & Ha & Hr);
        assert (Hstart : start <= now)
          by (destruct (attemptInFlight c); lia);
        assert (Hc0 : activeQueries c0 = activeQueries c)
          by (destruct (attemptInFlight c); reflexivity)
    end.
    rewrite He.
    exists t, r, (set_connectionPromise None (set_isConnecting false c')).
    split; [reflexivity |]. split; [lia |].
    split.
    + simpl. rewrite Ha. assumption.
    + destruct r; simpl; auto.
Qed.

(** X2.  Staleness only grows with time: a client that is not connected
    (or is stale) at some time is not connected at any later time, as long
    as its fields do not change. *)
Theorem isConnected_false_later c now now' :
  isConnected c now = false -> now <= now' -> isConnected c now' = false.
Proof.
  unfold isConnected, isConnectionHealthy, maxIdleTime.
  destruct (connection c); simpl; [| reflexivity].
  destruct (Z.ltb_spec 1800000 (now - lastUsed c)); [| discriminate].
  intros _ Hle.
  destruct (Z.ltb_spec 1800000 (now' - lastUsed c)); [reflexivity | lia].
Qed.

Lemma isConnected_false_later_witness :
  isConnected (Sample.connected 0) 1900000 = false.
Proof.
  apply (isConnected_false_later (Sample.connected 0) (now := 1800001)).
  - reflexivity.
  - lia.
Defined.

Lemma remove_query_subset q l x : In x (remove_query q l) -> In x l /\ x <> q.
Proof.
  unfold remove_query. intros H. apply filter_In in H. destruct H as [Hin Hb].
  split; [assumption |]. intros ->. rewrite String.eqb_refl in Hb. discriminate.
Qed.

Lemma orDefault_nonzero x d : d <> 0 -> orDefault x d <> 0.
Proof.
  intros Hd. unfold orDefault. destruct x as [v|]; [| assumption].
  destruct (Z.eqb_spec v 0); assumption.
Qed.

Lemma defaultTimeout_nonzero : defaultTimeout <> 0.
Proof. discriminate. Qed.

Lemma timerDelay_le_positive ms : ms <> 0 -> 0 <= ms -> timerDelay ms <= ms.
Proof.
  intros Hn Hp. unfold timerDelay.
  destruct ((1 <=? ms) && (ms <=? TIMEOUT_MAX)); lia.
Qed.

(** X3.  [execute] always settles when its timeout is not negative: at
    most ten seconds (the connect) plus the timeout in force after the
    call.  Whatever the outcome, no query identifier is left registered:
    the active queries afterwards were all active before, and if the
    connection was there the identifier of this call is not among them. *)
Theorem execute_settles_and_unregisters c options now queryId hs op :
  0 <= orDefault (timeout options) defaultTimeout ->
  exists t r c',
    execute c options now queryId hs op = (Settles t r, c') /\
    t <= now + 10000 + orDefault (timeout options) defaultTimeout /\
    (forall x, In x (activeQueries c') -> In x (activeQueries c)) /\
    (forall t0 c1, connect c now hs = (Settles t0 (inr tt), c1) ->
                   ~ In queryId (activeQueries c')).
Proof.
  intros Hpos. unfold execute.
  destruct (connect_settles_within_ten_seconds c now hs)
    as (t0 & r0 & c1 & Hc & Ht0 & Ha & Hr).
  rewrite Hc. destruct r0 as [e | []].
  - exists t0, (inl e), c1. split; [reflexivity |]. split; [lia |].
    split; [rewrite Ha; auto |]. intros ? ? H; discriminate.
  - rewrite Hr. simpl negb. cbv iota.
    destruct (race_settles_by (executeQuery t0 op)
                (t0 + timerDelay (orDefault (timeout options) defaultTimeout))
                (QueryTimeout (orDefault (timeout options) defaultTimeout)))
      as (t & r & Hrace & Ht).
    assert (Hdelay : timerDelay (orDefault (timeout options) defaultTimeout)
                     <= orDefault (timeout options) defaultTimeout).
    { apply timerDelay_le_positive; [| assumption].
      apply orDefault_nonzero. apply defaultTimeout_nonzero. }
    unfold createTimeoutPromise, rejectAfter. rewrite Hrace.
    destruct r as [e | [stmt rs]]; eexists t, _, _;
      (split; [reflexivity |]); (split; [lia |]); cbn -[remove_query];
      (split; [| intros _ _ _ Hin; apply remove_query_subset in Hin; tauto]);
      intros x Hin; apply remove_query_subset in Hin; destruct Hin as [Hin Hne];
      (destruct Hin as [-> | Hin]; [congruence |]);
      apply remove_query_subset in Hin; rewrite <- Ha; tauto.
Qed.

Lemma execute_settles_and_unregisters_witness :
  exists t r c',
    execute (Sample.connected 0) (Sample.options (Some 100)) 10
            "query_10_abc" Sample.ok NeverCompletes = (Settles t r, c') /\
    t <= 10 + 10000 + orDefault (timeout (Sample.options (Some 100))) defaultTimeout /\
    (forall x, In x (activeQueries c') ->
               In x (activeQueries (Sample.connected 0))) /\
    (forall t0 c1,
       connect (Sample.connected 0) 10 Sample.ok = (Settles t0 (inr tt), c1) ->
       ~ In "query_10_abc"%string (activeQueries c')).
Proof.
  refine (execute_settles_and_unregisters (Sample.connected 0)
            (Sample.options (Some 100)) 10 "query_10_abc" Sample.ok
            NeverCompletes _).
  vm_compute. discriminate.
Defined.

(** X4.  When the timeout in force is at most 2147483647 ms, an operation
    that completes before it decides the outcome of [execute], at the time
    it completes: its rows come back with [rowCount] their number and the
    columns of the statement, and its error comes back as an execution
    error. *)
Theorem execute_returns_operation_outcome
    c options now queryId hs start c1 d r :
  connect c now hs = (Settles start (inr tt), c1) ->
  orDefault (timeout options) defaultTimeout <= 2147483647 ->
  d < orDefault (timeout options) defaultTimeout ->
  fst (execute c options now queryId hs (Completes d r))
  = Settles (start + d)
      match r with
      | inl msg => inl (ExecutionFailed msg)
      | inr (stmt, rs) =>
          inr {| rows := rs; rowCount := Z.of_nat (List.length rs);
                 columns := extractColumnMetadata stmt |}
      end.
Proof.
  intros Hc Hmax Hd. unfold execute. rewrite Hc.
  rewrite (ClientProperties.connect_connected _ _ _ Hc). simpl negb. cbv iota.
  assert (Hdelay : d < timerDelay (orDefault (timeout options) defaultTimeout)).
  { unfold timerDelay, TIMEOUT_MAX.
    destruct (Z.leb_spec 1 (orDefault (timeout options) defaultTimeout));
      destruct (Z.leb_spec (orDefault (timeout options) defaultTimeout)
                  2147483647); simpl; lia. }
  unfold createTimeoutPromise, rejectAfter, executeQuery, race.
  destruct r as [msg | [stmt rs]];
    destruct (Z.leb_spec (start + d)
                (start + timerDelay (orDefault (timeout options) defaultTimeout)));
    try lia; reflexivity.
Qed.

Lemma execute_returns_operation_outcome_witness :
  fst (execute (Sample.connected 0) (Sample.options (Some 100)) 10
         "query_10_abc" Sample.ok (Completes 5 (inl "syntax error"%string)))
  = Settles (10 + 5) (inl (ExecutionFailed "syntax error")).
Proof.
  refine (execute_returns_operation_outcome (Sample.connected 0)
            (Sample.options (Some 100)) 10 "query_10_abc" Sample.ok
            (start := 10) (c1 := set_lastUsed 10 (Sample.connected 0))
            (d := 5) (inl "syntax error"%string) _ _ _).
  - reflexivity.
  - vm_compute. discriminate.
  - vm_compute. reflexivity.
Defined.

(** X5.  [disconnect] has no timer of its own.  When [destroy] calls back,
    with or without an error, the client is left without a connection, is
    no longer connected, and a further [disconnect] is a no-op that
    succeeds at once; when [destroy] never calls back, [disconnect] never
    settles and the connection stays set. *)
Theorem disconnect_resets_connection c now d :
  match disconnect c now d with
  | (Settles t r, c') =>
      connection c' = false /\
      (forall now', isConnected c' now' = false) /\
      (forall now' d', disconnect c' now' d' = (Settles now' (inr tt), c'))
  | (Pending, c') => d = DestroySilent /\ connection c = true /\ c' = c
  end.
Proof.
  unfold disconnect. destruct (connection c) eqn:Hc; simpl.
  - destruct d; simpl; auto.
  - repeat split; try assumption.
    + intros. unfold isConnected. rewrite Hc. reflexivity.
    + intros. rewrite Hc. reflexivity.
Qed.

Lemma establishConnection_fst c c' now hs :
  fst (establishConnection c now hs) = fst (establishConnection c' now hs).
Proof.
  unfold establishConnection.
  destruct (race _ _) as [t [e | []]|]; reflexivity.
Qed.

(** X6.  [reconnect] on a client that holds a connection and has no attempt
    in flight always makes a new handshake, even when the connection was
    healthy, and the outcome of the disconnect is ignored: once [destroy]
    has called back, after [t], the result is that of a fresh connection
    attempt started then. *)
Theorem reconnect_makes_new_handshake c now d hs t :
  connection c = true ->
  isConnecting c = false ->
  (d = Destroyed t \/ exists msg, d = DestroyErr t msg) ->
  fst (reconnect c now d hs)
  = fst (establishConnection
           (set_isConnecting true (set_connection false c)) (now + t) hs).
Proof.
  intros Hc Hi Hd. unfold reconnect, disconnect. rewrite Hc. simpl negb.
  cbv iota.
  assert (H : fst (connect (set_connection false c) (now + t) hs)
              = fst (establishConnection
                       (set_isConnecting true (set_connection false c))
                       (now + t) hs)).
  { unfold connect, attemptInFlight. simpl. rewrite Hi.
    pose proof (establishConnection_fst
                  (set_connectionPromise (Some (now + t))
                     (set_isConnecting true (set_connection false c)))
                  (set_isConnecting true (set_connection false c))
                  (now + t) hs) as E.
    destruct (establishConnection
                (set_connectionPromise (Some (now + t))
                   (set_isConnecting true (set_connection false c)))
                (now + t) hs) as [p1 x1].
    destruct (establishConnection
                (set_isConnecting true (set_connection false c))
                (now + t) hs) as [p2 x2].
    simpl in E. subst p2. destruct p1; reflexivity. }
  destruct Hd as [-> | [msg ->]]; exact H.
Qed.

Lemma reconnect_makes_new_handshake_witness :
  fst (reconnect (Sample.connected 0) 10 (DestroyErr 3 "busy")
         (HandshakeErr 5 "refused"))
  = fst (establishConnection
           (set_isConnecting true (set_connection false (Sample.connected 0)))
           (10 + 3) (HandshakeErr 5 "refused")).
Proof.
  refine (reconnect_makes_new_handshake (Sample.connected 0) 10
            (d := DestroyErr 3 "busy") (HandshakeErr 5 "refused") (t := 3)
            _ _ _).
  - reflexivity.
  - reflexivity.
  - right. exists "busy"%string. reflexivity.
Defined.

End ClientFacts.

(** * Further properties of the pool *)

Module PoolFacts.

Import Pool.
Import Scenario.

Lemma set_connections_same s : set_connections (connections s) s = s.
Proof. destruct s; reflexivity. Qed.

Lemma processWaitingQueue_loop_exhausts queue now : forall s,
  waitingQueue s = queue ->
  let s' := processWaitingQueue_loop queue now s in
  waitingQueue s' = [] \/ findAvailableConnection s' now = None.
Proof.
  induction queue as [|request rest IH]; intros s Hq; simpl.
  - left; assumption.
  - destruct (findAvailableConnection s now) as [a|] eqn:Ha.
    + apply IH. destruct (resolve request); reflexivity.
    + right; assumption.
Qed.

Lemma find_available_after_release r now s conn :
  findConnectionByClient s r = Some conn ->
  Client.isConnected (client conn) now = true ->
  findAvailableConnection
    (set_connections
       (updateFirst (has_client r)
          (fun c => set_lastUsed now (set_inUse false c)) (connections s)) s)
    now <> None.
Proof.
  intros Hfind Hconn Hnone.
  unfold findConnectionByClient in Hfind.
  destruct (PoolProperties.find_first _ _ Hfind) as (before & rest & Hm & Hc & Hb).
  unfold findAvailableConnection in Hnone. simpl in Hnone.
  rewrite Hm in Hnone.
  rewrite PoolProperties.updateFirst_first in Hnone by assumption.
  pose proof (find_none _ _ Hnone (set_lastUsed now (set_inUse false conn))) as Hn.
  assert (Hin : In (set_lastUsed now (set_inUse false conn))
                   (before ++ set_lastUsed now (set_inUse false conn) :: rest))
    by (apply in_or_app; right; left; reflexivity).
  specialize (Hn Hin). unfold available, set_lastUsed, set_inUse in Hn.
  cbn [inUse client negb andb] in Hn. rewrite Hconn in Hn. discriminate.
Qed.

(** The same when the pool is searched at a later time [now'], for a
    client that is connected at that time. *)
Lemma find_available_after_release_at r now now' s conn :
  findConnectionByClient s r = Some conn ->
  Client.isConnected (client conn) now' = true ->
  findAvailableConnection
    (set_connections
       (updateFirst (has_client r)
          (fun c => set_lastUsed now (set_inUse false c)) (connections s)) s)
    now' <> None.
Proof.
  intros Hfind Hconn Hnone.
  unfold findConnectionByClient in Hfind.
  destruct (PoolProperties.find_first _ _ Hfind) as (before & rest & Hm & Hc & Hb).
  unfold findAvailableConnection in Hnone. simpl in Hnone.
  rewrite Hm in Hnone.
  rewrite PoolProperties.updateFirst_first in Hnone by assumption.
  pose proof (find_none _ _ Hnone (set_lastUsed now (set_inUse false conn))) as Hn.
  assert (Hin : In (set_lastUsed now (set_inUse false conn))
                   (before ++ set_lastUsed now (set_inUse false conn) :: rest))
    by (apply in_or_app; right; left; reflexivity).
  specialize (Hn Hin). unfold available, set_lastUsed, set_inUse in Hn.
  cbn [inUse client negb andb] in Hn. rewrite Hconn in Hn. discriminate.
Qed.

(** X7.  [processWaitingQueue] stops only when the queue is empty or no
    connection is available; so after [release] of a client of the pool no
    caller is left waiting while a connection is available. *)
Theorem release_leaves_no_idle_waiter :
  (forall now s,
     waitingQueue (processWaitingQueue now s) = [] \/
     findAvailableConnection (processWaitingQueue now s) now = None) /\
  (forall r now s conn,
     findConnectionByClient s r = Some conn ->
     waitingQueue (fst (release r now s)) = [] \/
     findAvailableConnection (fst (release r now s)) now = None).
Proof.
  split.
  - intros now s. apply processWaitingQueue_loop_exhausts. reflexivity.
  - intros r now s conn Hf. unfold release. rewrite Hf. simpl fst.
    apply processWaitingQueue_loop_exhausts. reflexivity.
Qed.

Lemma release_leaves_no_idle_waiter_witness :
  waitingQueue (fst (release 0 200 two_waiting)) = [] \/
  findAvailableConnection (fst (release 0 200 two_waiting)) 200 = None.
Proof.
  refine (proj2 release_leaves_no_idle_waiter 0%nat 200 two_waiting
            {| client := Client.set_isConnecting false
                           (Client.set_lastUsed 5
                              (Client.set_connection true
                                 (Client.set_isConnecting true
                                    (Client.new 0 Sample.cfg 0))));
               id := "conn_0_a"; createdAt := 5; lastUsed := 5;
               inUse := true |} _).
  vm_compute. reflexivity.
Defined.

(** X8.  When [acquire] finds an available connection, that connection was
    not in use and its client was connected; [acquire] returns its client
    at once, marks exactly this connection in use with [lastUsed = now],
    starts no creation and queues nothing; and the connection is then no
    longer available to another caller. *)
Theorem acquire_takes_an_idle_connection now connectionId s a :
  isShuttingDown s = false ->
  findAvailableConnection s now = Some a ->
  let taken := {| client := client a; id := id a; createdAt := createdAt a;
                  lastUsed := now; inUse := true |} in
  inUse a = false /\
  Client.isConnected (client a) now = true /\
  available now taken = false /\
  exists before rest,
    connections s = before ++ a :: rest /\
    Forall (fun c => available now c = false) before /\
    acquire now connectionId s
    = emit (Returned (nextPromise s) (Client.ref (client a)))
        (set_connections (before ++ taken :: rest)
           (set_nextPromise (S (nextPromise s)) s)).
Proof.
  intros Hsd Ha taken.
  unfold findAvailableConnection in Ha.
  destruct (PoolProperties.find_first _ _ Ha) as (before & rest & Hm & Hav & Hb).
  pose proof Hav as Hav'. unfold available in Hav'.
  apply andb_true_iff in Hav'. destruct Hav' as [Hin Hco].
  split; [destruct (inUse a); [discriminate | reflexivity] |].
  split; [assumption |]. split; [reflexivity |].
  exists before, rest. split; [assumption |]. split; [assumption |].
  unfold acquire. simpl isShuttingDown. rewrite Hsd.
  unfold findAvailableConnection. simpl connections. rewrite Ha.
  rewrite Hm. rewrite PoolProperties.updateFirst_first by assumption.
  reflexivity.
Qed.

Lemma acquire_takes_an_idle_connection_witness :
  let taken := {| client := client idle_connection; id := id idle_connection;
                  createdAt := createdAt idle_connection;
                  lastUsed := 8; inUse := true |} in
  inUse idle_connection = false /\
  Client.isConnected (client idle_connection) 8 = true /\
  available 8 taken = false /\
  exists before rest,
    connections one_idle = before ++ idle_connection :: rest /\
    Forall (fun c => available 8 c = false) before /\
    acquire 8 "conn_8_b" one_idle
    = emit (Returned (nextPromise one_idle) (Client.ref (client idle_connection)))
        (set_connections (before ++ taken :: rest)
           (set_nextPromise (S (nextPromise one_idle)) one_idle)).
Proof.
  refine (acquire_takes_an_idle_connection 8 "conn_8_b" one_idle
            (a := idle_connection) _ _).
  - vm_compute. reflexivity.
  - vm_compute. reflexivity.
Defined.

(** X9.  Reuse: after [release] at time [now] of a client of a pool that
    is not shutting down and has no waiter, an [acquire] at a time [now']
    at which that client is connected returns a client at once; it creates
    no connection and queues nothing. *)
Theorem release_then_acquire_reuses r now now' connectionId s conn :
  isShuttingDown s = false ->
  waitingQueue s = [] ->
  findConnectionByClient s r = Some conn ->
  Client.isConnected (client conn) now' = true ->
  let s' := acquire now' connectionId (fst (release r now s)) in
  (exists c, events s' = events s ++ [Returned (nextPromise s) c]) /\
  connecting s' = connecting s /\
  waitingQueue s' = [] /\
  List.length (connections s') = List.length (connections s).
Proof.
  intros Hsd Hq Hf Hc.
  pose proof (@find_available_after_release_at r now now' s conn Hf Hc) as Hav.
  unfold release. rewrite Hf. simpl fst.
  unfold processWaitingQueue. simpl waitingQueue. rewrite Hq.
  simpl processWaitingQueue_loop.
  set (s1 := set_connections _ s) in *.
  unfold acquire.
  change (isShuttingDown (set_nextPromise (S (nextPromise s1)) s1))
    with (isShuttingDown s).
  rewrite Hsd.
  change (findAvailableConnection (set_nextPromise (S (nextPromise s1)) s1) now')
    with (findAvailableConnection s1 now').
  destruct (findAvailableConnection s1 now') as [a|]; [| contradiction Hav; reflexivity].
  simpl. rewrite Hq. split; [eexists; reflexivity |].
  split; [reflexivity |]. split; [reflexivity |].
  rewrite !PoolProperties.updateFirst_length. reflexivity.
Qed.

Lemma release_then_acquire_reuses_witness :
  let s := run (Sample.pool 1 1)
             [Acquire 0 "conn_0_a"; ConnectSettles 0 Sample.ok 5;
              AcquireResumes 0 5] in
  let s' := acquire 60000 "conn_60000_b" (fst (release 0 7 s)) in
  (exists c, events s' = events s ++ [Returned (nextPromise s) c]) /\
  connecting s' = connecting s /\
  waitingQueue s' = [] /\
  List.length (connections s') = List.length (connections s).
Proof.
  refine (@release_then_acquire_reuses 0%nat 7 60000 "conn_60000_b"
            (run (Sample.pool 1 1)
               [Acquire 0 "conn_0_a"; ConnectSettles 0 Sample.ok 5;
                AcquireResumes 0 5])
            ({| client := Client.set_isConnecting false
                           (Client.set_lastUsed 5
                              (Client.set_connection true
                                 (Client.set_isConnecting true
                                    (Client.new 0 Sample.cfg 0))));
               id := "conn_0_a"; createdAt := 5; lastUsed := 5;
               inUse := true |}) _ _ _ _).
  - vm_compute. reflexivity.
  - vm_compute. reflexivity.
  - vm_compute. reflexivity.
  - vm_compute. reflexivity.
Defined.

(** ** Idle reclamation *)

Lemma filter_nil_when_all_false {A : Type} (test : A -> bool) l :
  (forall x, In x l -> test x = false) -> filter test l = [].
Proof.
  induction l as [|x l IH]; intros H; simpl; [reflexivity |].
  rewrite (H x) by (left; reflexivity).
  apply IH. intros y Hy. apply H. right; assumption.
Qed.

(** X10.  A tick of the cleanup timer changes nothing when the pool holds
    at most [minConnections] connections, and nothing when every
    connection is in use or was used within [idleTimeout]. *)
Theorem cleanup_tick_is_a_noop now destroyOk s :
  size (connections s) <= minConnections (poolConfig s) \/
  (forall c, In c (connections s) ->
     inUse c = true \/ now - lastUsed c <= idleTimeout (poolConfig s)) ->
  cleanupIdleConnections now destroyOk s = s.
Proof.
  intros H. unfold cleanupIdleConnections.
  destruct (isShuttingDown s); [reflexivity |].
  rewrite filter_nil_when_all_false; [apply set_connections_same |].
  intros c Hc. unfold shouldClose.
  destruct H as [Hsize | Hidle].
  - destruct (Z.ltb_spec (minConnections (poolConfig s)) (size (connections s)));
      [lia | apply andb_false_r].
  - destruct (Hidle c Hc) as [Hu | Hl].
    + rewrite Hu. reflexivity.
    + destruct (Z.ltb_spec (idleTimeout (poolConfig s)) (now - lastUsed c));
        [lia |]. rewrite andb_false_r. reflexivity.
Qed.

Lemma cleanup_tick_is_a_noop_witness :
  cleanupIdleConnections 60000 (fun _ => true) one_idle = one_idle.
Proof.
  refine (cleanup_tick_is_a_noop 60000 (fun _ => true) one_idle _).
  left. vm_compute. discriminate.
Defined.

(** ** [initialize] *)

Lemma initialize_loop_connecting ids now n : forall i s,
  exists added,
    connecting (initialize_loop n i ids now s) = connecting s ++ added /\
    List.length added = n /\
    Forall (fun cr => owner cr = ByInitialize) added /\
    nextClient (initialize_loop n i ids now s) = (nextClient s + n)%nat.
Proof.
  induction n as [|n IH]; intros i s; simpl.
  - exists []. rewrite app_nil_r, Nat.add_0_r. repeat split. constructor.
  - destruct (IH (S i) (createConnection ByInitialize (ids i) now s))
      as (added & Hc & Hl & Ho & Hn).
    eexists (_ :: added). rewrite Hc, Hn. simpl.
    rewrite <- app_assoc. simpl. split; [reflexivity |].
    split; [congruence |]. split; [constructor; [reflexivity | assumption] |].
    lia.
Qed.

(** X11.  [initialize] starts one creation for each of the
    [minConnections] (none when that is not positive), whatever
    [maxConnections] is, and reports nothing; a creation it started that
    fails is dropped without any report and without touching the
    connections, the wait queue or the suspended [acquire] calls. *)
Theorem initialize_is_best_effort :
  (forall now ids s,
     exists added,
       connecting (initialize now ids s) = connecting s ++ added /\
       List.length added = Z.to_nat (minConnections (poolConfig s)) /\
       Forall (fun cr => owner cr = ByInitialize) added /\
       connections (initialize now ids s) = connections s /\
       events (initialize now ids s) = events s) /\
  (forall s r hs now cr t e c,
     find (creates r) (connecting s) = Some cr ->
     owner cr = ByInitialize ->
     Client.connect (newClient cr) (startedAt cr) hs = (Settles t (inl e), c) ->
     createConnection_resume r hs now s
     = set_connecting (filter (fun x => negb (creates r x)) (connecting s)) s).
Proof.
  split.
  - intros now ids s. unfold initialize.
    destruct (initialize_loop_connecting ids now
                (Z.to_nat (minConnections (poolConfig s))) 0 s)
      as (added & Hc & Hl & Ho & _).
    destruct (PoolProperties.initialize_loop_spec ids now
                (Z.to_nat (minConnections (poolConfig s))) 0 s)
      as (_ & _ & _ & Hconn & _ & Hev).
    exists added. auto.
  - intros s r hs now cr t e c Hf Ho Hc.
    unfold createConnection_resume. rewrite Hf, Hc, Ho. reflexivity.
Qed.

Lemma initialize_is_best_effort_witness :
  createConnection_resume 0 (Client.HandshakeErr 5 "refused") 5
    (initialize 0 (fun _ => "conn_0_a"%string) (Sample.pool 5 2))
  = set_connecting
      (filter (fun x => negb (creates 0 x))
         (connecting (initialize 0 (fun _ => "conn_0_a"%string)
                        (Sample.pool 5 2))))
      (initialize 0 (fun _ => "conn_0_a"%string) (Sample.pool 5 2)).
Proof.
  refine (proj2 initialize_is_best_effort
            (initialize 0 (fun _ => "conn_0_a"%string) (Sample.pool 5 2))
            0%nat (Client.HandshakeErr 5 "refused") 5
            {| owner := ByInitialize; connectionId := "conn_0_a";
               newClient := Client.new 0 Sample.cfg 0;
               startedAt := 0 |}
            5 (Client.ConnectFailed "refused")
            (Client.set_isConnecting false
               (Client.set_connection false
                  (Client.set_connection true
                     (Client.set_isConnecting true
                        (Client.new 0 Sample.cfg 0))))) _ _ _).
  - vm_compute. reflexivity.
  - reflexivity.
  - vm_compute. reflexivity.
Defined.

(** ** [getStats] *)

Lemma filter_disjoint_length {A : Type} (p q : A -> bool) l :
  (forall x, p x = true -> q x = false) ->
  (List.length (filter p l) + List.length (filter q l) <= List.length l)%nat.
Proof.
  intros H. induction l as [|x l IH]; simpl; [lia |].
  destruct (p x) eqn:Hp.
  - rewrite (H x Hp). simpl. lia.
  - destruct (q x); simpl; lia.
Qed.

Lemma maxOf_bounds l : forall a,
  a <= maxOf a l /\ (forall x, In x l -> x <= maxOf a l).
Proof.
  unfold maxOf. induction l as [|y l IH]; intros a; simpl.
  - split; [lia | intros x []].
  - destruct (IH (Z.max a y)) as [H1 H2].
    split; [lia |]. intros x [<- | Hx]; [lia | auto].
Qed.

Lemma minOf_bounds l : forall a,
  minOf a l <= a /\ (forall x, In x l -> minOf a l <= x).
Proof.
  unfold minOf. induction l as [|y l IH]; intros a; simpl.
  - split; [lia | intros x []].
  - destruct (IH (Z.min a y)) as [H1 H2].
    split; [lia |]. intros x [<- | Hx]; [lia | auto].
Qed.

(** X12.  The statistics are consistent: the available and the in-use
    connections are disjoint parts of the total; the age of every
    connection lies between [newestConnection] and [oldestConnection]; and
    both are 0 for a pool without connections. *)
Theorem getStats_is_consistent s now :
  let st := getStats s now in
  0 <= availableConnections st /\
  0 <= inUseConnections st /\
  availableConnections st + inUseConnections st <= totalConnections st /\
  waitingRequests st = Z.of_nat (List.length (waitingQueue s)) /\
  (forall c, In c (connections s) ->
     newestConnection st <= now - createdAt c <= oldestConnection st) /\
  (connections s = [] ->
   totalConnections st = 0 /\ oldestConnection st = 0 /\
   newestConnection st = 0).
Proof.
  unfold getStats, getAvailableConnectionCount, getInUseConnectionCount, size.
  cbn [availableConnections inUseConnections totalConnections waitingRequests
       oldestConnection newestConnection].
  split; [lia |]. split; [lia |].
  split.
  { pose proof (filter_disjoint_length (available now) inUse (connections s)) as H.
    assert (Hd : forall x, available now x = true -> inUse x = false).
    { intros x Hx. unfold available in Hx. apply andb_true_iff in Hx.
      destruct (inUse x); [destruct Hx; discriminate | reflexivity]. }
    specialize (H Hd). lia. }
  split; [reflexivity |].
  split.
  - intros c Hc.
    apply (in_map (fun conn => now - createdAt conn)) in Hc.
    destruct (map (fun conn => now - createdAt conn) (connections s))
      as [|a l]; [contradiction |].
    destruct (maxOf_bounds l a) as [Ha Hl].
    destruct (minOf_bounds l a) as [Ha' Hl'].
    destruct Hc as [<- | Hc]; [lia |].
    specialize (Hl _ Hc). specialize (Hl' _ Hc). lia.
  - intros ->. simpl. repeat split.
Qed.

(** ** [shutdown] again *)


(** ** The wait queue of a reachable pool *)

Lemma Forall_Subseq {A : Type} (P : A -> Prop) k l :
  Subseq k l -> Forall P l -> Forall P k.
Proof.
  induction 1 as [| x k l _ IH | x k l _ IH]; intros HP;
    [constructor | |]; inversion HP; subst; auto.
Qed.

Lemma waitForConnection_wrapped p now s :
  Forall wrapped (waitingQueue s) ->
  Forall wrapped (waitingQueue (waitForConnection p now s)).
Proof.
  intros H. simpl. apply Forall_app. split; [assumption |].
  constructor; [| constructor]. exists p. split; reflexivity.
Qed.

Lemma step_wrapped s c :
  Forall wrapped (waitingQueue s) -> Forall wrapped (waitingQueue (step s c)).
Proof.
  intros H.
  destruct c as [now ids | now connectionId | r hs now | p now | r now | p
                 | now destroyOk | | | c | now | k destroyOk]; simpl step.
  - destruct (PoolProperties.initialize_loop_spec ids now
                (Z.to_nat (minConnections (poolConfig s))) 0 s)
      as (_ & _ & _ & _ & Hq & _).
    unfold initialize. rewrite Hq. assumption.
  - unfold acquire. destruct (isShuttingDown _); [exact H |].
    destruct (findAvailableConnection _ now); [exact H |].
    destruct (_ <? _); [exact H |].
    apply waitForConnection_wrapped. exact H.
  - unfold createConnection_resume.
    destruct (find (creates r) (connecting s)) as [cr|]; [| exact H].
    destruct (Client.connect _ _ hs) as [[t [e|u]|] c];
      destruct (owner cr); exact H.
  - unfold acquire_resume.
    destruct (find (resumes p) (resuming s)) as [[q [e|c]]|]; [| exact H | exact H].
    apply waitForConnection_wrapped. exact H.
  - unfold release. destruct (findConnectionByClient s r); [| exact H].
    simpl fst.
    match goal with |- context [processWaitingQueue now ?s1] =>
      destruct (PoolProperties.processWaitingQueue_spec now s1)
        as (_ & _ & served & new & Hq & _)
    end.
    simpl in Hq. rewrite Hq in H. apply Forall_app in H. tauto.
  - unfold acquireTimer_fires. destruct (existsb _ _); [| exact H].
    destruct (findIndex _ _) as [i|]; [| exact H].
    simpl. eapply Forall_Subseq; [apply PoolProperties.Subseq_splice1 | exact H].
  - unfold cleanupIdleConnections.
    destruct (cleanupInterval s), (isShuttingDown s); exact H.
  - destruct (PoolProperties.shutdown_spec s) as (_ & _ & _ & Hq & _).
    rewrite Hq. constructor.
  - unfold shutdown_resume. destruct (closing s); exact H.
  - exact H.
  - unfold cleanupIdleConnections_scan.
    destruct (cleanupInterval s); [| exact H].
    destruct (isShuttingDown s); [exact H |].
    destruct (filter _ _); exact H.
  - unfold cleanupIdleConnections_resume.
    destruct (nth_error _ k) as [[|x rest]|]; exact H.
Qed.

Lemma run_wrapped calls : forall s,
  Forall wrapped (waitingQueue s) -> Forall wrapped (waitingQueue (run s calls)).
Proof.
  induction calls as [|c calls IH]; intros s H; [exact H |].
  simpl. apply IH. apply step_wrapped. exact H.
Qed.

Lemma findIndex_wrapped p queue :
  Forall wrapped queue ->
  findIndex (fun req => ResolveFn_eqb (resolve req) (PromiseResolve p)) queue
  = None.
Proof.
  induction 1 as [|w queue (q & Hr & _) _ IH]; simpl; [reflexivity |].
  rewrite Hr, IH. reflexivity.
Qed.

(** X14.  In every state a constructed pool can reach, each queued request
    holds the wrapper functions, and the callback of an acquire timer
    never takes a request out of the wait queue: whichever timer fires,
    the queue is the same before and after, and the caller of an armed
    timer is rejected with the acquire-timeout error. *)
Theorem acquire_timer_never_dequeues cfg pc calls p :
  let s := run (constructor cfg pc) calls in
  Forall wrapped (waitingQueue s) /\
  waitingQueue (acquireTimer_fires p s) = waitingQueue s /\
  (existsb (Nat.eqb p) (timers s) = true ->
   events (acquireTimer_fires p s)
   = events s ++ [Rejected p (AcquireTimeout (acquireTimeout (poolConfig s)))]).
Proof.
  intros s.
  assert (Hw : Forall wrapped (waitingQueue s)).
  { apply run_wrapped. simpl. constructor. }
  split; [assumption |].
  unfold acquireTimer_fires.
  destruct (existsb (Nat.eqb p) (timers s)).
  - change (waitingQueue (clearTimeout p s)) with (waitingQueue s).
    rewrite (findIndex_wrapped p Hw). split; [reflexivity |].
    intros _. reflexivity.
  - split; [reflexivity | discriminate].
Qed.

Lemma acquire_timer_never_dequeues_witness :
  let s := run (constructor Sample.cfg (Sample.settings 1 1 1000 100))
             [Acquire 0 "conn_0_a"; ConnectSettles 0 Sample.ok 5;
              AcquireResumes 0 5; Acquire 6 "conn_6_b"] in
  events (acquireTimer_fires 1 s)
  = events s ++ [Rejected 1 (AcquireTimeout (acquireTimeout (poolConfig s)))].
Proof.
  refine (proj2 (proj2 (acquire_timer_never_dequeues Sample.cfg
                          (Sample.settings 1 1 1000 100)
                          [Acquire 0 "conn_0_a"; ConnectSettles 0 Sample.ok 5;
                           AcquireResumes 0 5; Acquire 6 "conn_6_b"] 1%nat)) _).
  vm_compute. reflexivity.
Defined.

(** ** The keys of the map *)

Lemma updateFirst_ids test f l :
  (forall c, id (f c) = id c) -> map id (updateFirst test f l) = map id l.
Proof.
  intros Hf. induction l as [|x l IH]; simpl; [reflexivity |].
  destruct (test x); simpl; [rewrite Hf | rewrite IH]; reflexivity.
Qed.

Lemma map_ids (g : PooledConnection -> PooledConnection) l :
  (forall c, id (g c) = id c) -> map id (map g l) = map id l.
Proof.
  intros Hg. rewrite map_map. apply map_ext. assumption.
Qed.

Lemma NoDup_map_filter {A B : Type} (f : A -> B) (p : A -> bool) l :
  NoDup (map f l) -> NoDup (map f (filter p l)).
Proof.
  induction l as [|x l IH]; simpl; intros H; [constructor |].
  inversion H as [|? ? Hn Hd]; subst.
  destruct (p x); simpl; [| auto].
  constructor; [| auto].
  intros Hin. apply Hn. apply in_map_iff in Hin.
  destruct Hin as (y & Hy & Hin). apply filter_In in Hin.
  apply in_map_iff. exists y. tauto.
Qed.

Lemma NoDup_map_inj {A B : Type} (f : A -> B) l a b :
  NoDup (map f l) -> In a l -> In b l -> f a = f b -> a = b.
Proof.
  induction l as [|x l IH]; simpl; intros H Ha Hb Hf; [contradiction |].
  inversion H as [|? ? Hn Hd]; subst.
  destruct Ha as [-> | Ha], Hb as [-> | Hb]; auto.
  - exfalso. apply Hn. rewrite Hf. apply in_map. assumption.
  - exfalso. apply Hn. rewrite <- Hf. apply in_map. assumption.
Qed.

Lemma map_set_NoDup k v m :
  id v = k -> NoDup (map id m) -> NoDup (map id (map_set k v m)).
Proof.
  intros Hv Hm. unfold map_set.
  destruct (existsb (has_id k) m) eqn:He.
  - replace (map id (map (fun c => if has_id k c then v else c) m))
      with (map id m); [assumption |].
    rewrite map_map. apply map_ext. intros c. unfold has_id.
    destruct (String.eqb_spec (id c) k); congruence.
  - rewrite map_app. simpl.
    assert (Hn : ~ In k (map id m)).
    { intros Hin. apply in_map_iff in Hin. destruct Hin as (c & Hc & Hin).
      assert (Hex : existsb (has_id k) m = true).
      { apply existsb_exists. exists c. split; [assumption |].
        unfold has_id. rewrite Hc. apply String.eqb_refl. }
      congruence. }
    rewrite Hv. clear He. induction m as [|x m IH]; simpl.
    + constructor; [intros [] | constructor].
    + inversion Hm as [|? ? Hx Hd]; subst. simpl in Hn.
      constructor.
      * intros Hin. apply in_app_or in Hin. destruct Hin as [Hin | [Hin | []]];
          [contradiction | apply Hn; left; congruence].
      * apply IH; [assumption | tauto].
Qed.

Lemma closeAll_NoDup destroyOk toClose : forall m,
  NoDup (map id m) -> NoDup (map id (closeAll toClose destroyOk m)).
Proof.
  induction toClose as [|c rest IH]; intros m H; simpl; [assumption |].
  destruct (disconnect destroyOk (client c)) as [ok c'].
  apply IH.
  assert (H1 : NoDup (map id (map (fun x => if has_client (Client.ref c') x
                                            then set_client c' x else x) m))).
  { rewrite map_ids; [assumption |]. intros x.
    destruct (has_client _ x); reflexivity. }
  destruct ok; [apply NoDup_map_filter |]; assumption.
Qed.

Lemma closeOne_NoDup destroyOk connection m :
  NoDup (map id m) -> NoDup (map id (closeOne destroyOk connection m)).
Proof.
  intros H. unfold closeOne.
  destruct (disconnect destroyOk (currentClient m connection)) as [ok c'].
  assert (H1 : NoDup (map id (map (fun x => if has_client (Client.ref c') x
                                            then set_client c' x else x) m))).
  { rewrite map_ids; [assumption |]. intros x.
    destruct (has_client _ x); reflexivity. }
  destruct ok; [apply NoDup_map_filter |]; assumption.
Qed.

Lemma processWaitingQueue_loop_ids queue now : forall s,
  map id (connections (processWaitingQueue_loop queue now s))
  = map id (connections s).
Proof.
  induction queue as [|request rest IH]; intros s; simpl; [reflexivity |].
  destruct (findAvailableConnection s now); [| reflexivity].
  rewrite IH. destruct (resolve request); simpl;
    apply updateFirst_ids; reflexivity.
Qed.

Lemma step_NoDup s c :
  NoDup (map id (connections s)) -> NoDup (map id (connections (step s c))).
Proof.
  intros H.
  destruct c as [now ids | now connectionId | r hs now | p now | r now | p
                 | now destroyOk | | | c | now | k destroyOk]; simpl step.
  - destruct (PoolProperties.initialize_loop_spec ids now
                (Z.to_nat (minConnections (poolConfig s))) 0 s)
      as (_ & _ & _ & Hc & _).
    unfold initialize. rewrite Hc. assumption.
  - unfold acquire. destruct (isShuttingDown _); [exact H |].
    destruct (findAvailableConnection _ now).
    + simpl. rewrite updateFirst_ids; [exact H | reflexivity].
    + destruct (_ <? _); exact H.
  - unfold createConnection_resume.
    destruct (find (creates r) (connecting s)) as [cr|]; [| exact H].
    destruct (Client.connect _ _ hs) as [[t [e|u]|] c]; [| | exact H].
    + destruct (owner cr); exact H.
    + destruct (owner cr); simpl; apply map_set_NoDup; (reflexivity || exact H).
  - unfold acquire_resume.
    destruct (find (resumes p) (resuming s)) as [[q [e|c]]|]; [exact H | | exact H].
    simpl. rewrite updateFirst_ids; [exact H | reflexivity].
  - unfold release. destruct (findConnectionByClient s r); [| exact H].
    simpl fst. unfold processWaitingQueue.
    rewrite processWaitingQueue_loop_ids. simpl.
    rewrite updateFirst_ids; [exact H | reflexivity].
  - unfold acquireTimer_fires. destruct (existsb _ _); [| exact H].
    destruct (findIndex _ _); exact H.
  - unfold cleanupIdleConnections.
    destruct (cleanupInterval s); [| exact H].
    destruct (isShuttingDown s); [exact H |]. simpl.
    apply closeAll_NoDup. exact H.
  - destruct (PoolProperties.shutdown_spec s) as (_ & _ & _ & _ & Hc & _).
    rewrite Hc. exact H.
  - unfold shutdown_resume. destruct (closing s); [exact H | constructor].
  - simpl. rewrite map_ids; [exact H |].
    intros x. destruct (has_client _ x); reflexivity.
  - unfold cleanupIdleConnections_scan.
    destruct (cleanupInterval s); [| exact H].
    destruct (isShuttingDown s); [exact H |].
    destruct (filter _ _); exact H.
  - unfold cleanupIdleConnections_resume.
    destruct (nth_error _ k) as [[|x rest]|]; try exact H.
    simpl. apply closeOne_NoDup. exact H.
Qed.

Lemma run_NoDup calls : forall s,
  NoDup (map id (connections s)) ->
  NoDup (map id (connections (run s calls))).
Proof.
  induction calls as [|c calls IH]; intros s H; [exact H |].
  simpl. apply IH. apply step_NoDup. exact H.
Qed.

Lemma closeAll_keeps destroyOk k b toClose : forall m,
  (forall x, In x toClose -> id x <> k) ->
  (exists c, In c m /\ id c = k /\ inUse c = b) ->
  exists c, In c (closeAll toClose destroyOk m) /\ id c = k /\ inUse c = b.
Proof.
  induction toClose as [|x rest IH]; intros m Hne Hc; simpl; [assumption |].
  destruct (disconnect destroyOk (client x)) as [ok c'].
  apply IH; [intros y Hy; apply Hne; right; assumption |].
  destruct Hc as (c & Hin & Hid & Hu).
  set (g := fun y => if has_client (Client.ref c') y then set_client c' y else y).
  assert (Hg : In (g c) (map g m)) by (apply in_map; assumption).
  assert (Hgid : id (g c) = k /\ inUse (g c) = b).
  { unfold g. destruct (has_client _ c); simpl; auto. }
  exists (g c). split; [| assumption].
  destruct ok; [| assumption].
  unfold map_delete. apply filter_In. split; [assumption |].
  unfold has_id. destruct Hgid as [-> _].
  destruct (String.eqb_spec k (id x)) as [e|]; [| reflexivity].
  exfalso. apply (Hne x); [left; reflexivity | congruence].
Qed.

(** X15.  In every state a constructed pool can reach, the identifiers of
    the stored connections are pairwise distinct, and a tick of the cleanup
    timer removes no connection that is in use when the tick starts: it is
    still stored, and still in use, when the tick is over. *)
Theorem cleanup_tick_keeps_connections_in_use cfg pc calls now destroyOk c :
  let s := run (constructor cfg pc) calls in
  In c (connections s) ->
  inUse c = true ->
  NoDup (map id (connections s)) /\
  exists c',
    In c' (connections (cleanupIdleConnections now destroyOk s)) /\
    id c' = id c /\ inUse c' = true.
Proof.
  intros s Hin Hu.
  assert (Hnd : NoDup (map id (connections s))).
  { apply run_NoDup. simpl. constructor. }
  split; [assumption |].
  unfold cleanupIdleConnections.
  destruct (isShuttingDown s); [exists c; auto |].
  simpl connections.
  apply closeAll_keeps; [| exists c; auto].
  intros x Hx Hid. apply filter_In in Hx. destruct Hx as [Hxin Hclose].
  assert (x = c) by (eapply NoDup_map_inj; eauto). subst x.
  unfold shouldClose in Hclose. rewrite Hu in Hclose. discriminate.
Qed.

(** ** Waiting at capacity *)

Lemma find_none_all {A : Type} (test : A -> bool) l :
  Forall (fun x => test x = false) l -> find test l = None.
Proof.
  induction 1 as [|x l Hx _ IH]; simpl; [reflexivity |].
  rewrite Hx. assumption.
Qed.

(** X18.  A caller that calls [acquire] when no connection is available
    and the pool is at [maxConnections] is queued with its timer armed and
    nothing is reported yet; if its timer then fires, it is rejected with
    the acquire-timeout error of the configured [acquireTimeout]. *)
Theorem saturated_acquire_times_out now connectionId s :
  isShuttingDown s = false ->
  findAvailableConnection s now = None ->
  maxConnections (poolConfig s) <= size (connections s) ->
  let p := nextPromise s in
  let s1 := acquire now connectionId s in
  events s1 = events s /\
  connecting s1 = connecting s /\
  waitingQueue s1
  = waitingQueue s ++
    [{| resolve := ResolveWrapper p; reject := RejectWrapper p;
        timestamp := now |}] /\
  events (acquireTimer_fires p s1)
  = events s ++ [Rejected p (AcquireTimeout (acquireTimeout (poolConfig s)))].
Proof.
  intros Hsd Ha Hmax p s1.
  assert (Hs1 : s1 = waitForConnection p now (set_nextPromise (S p) s)).
  { unfold s1, acquire. fold p.
    change (isShuttingDown (set_nextPromise (S p) s)) with (isShuttingDown s).
    rewrite Hsd.
    change (findAvailableConnection (set_nextPromise (S p) s) now)
      with (findAvailableConnection s now).
    rewrite Ha.
    change (size (connections (set_nextPromise (S p) s)))
      with (size (connections s)).
    change (poolConfig (set_nextPromise (S p) s)) with (poolConfig s).
    destruct (Z.ltb_spec (size (connections s)) (maxConnections (poolConfig s)));
      [lia | reflexivity]. }
  rewrite Hs1. split; [reflexivity |]. split; [reflexivity |].
  split; [reflexivity |].
  unfold acquireTimer_fires.
  assert (Ht : existsb (Nat.eqb p)
                 (timers (waitForConnection p now (set_nextPromise (S p) s)))
               = true).
  { simpl. rewrite existsb_app. simpl. rewrite Nat.eqb_refl.
    rewrite orb_true_r. reflexivity. }
  rewrite Ht.
  destruct (findIndex _ _); reflexivity.
Qed.

Lemma saturated_acquire_times_out_witness :
  let s := run (Sample.pool 1 1)
             [Acquire 0 "conn_0_a"; ConnectSettles 0 Sample.ok 5;
              AcquireResumes 0 5] in
  let p := nextPromise s in
  let s1 := acquire 6 "conn_6_b" s in
  events s1 = events s /\
  connecting s1 = connecting s /\
  waitingQueue s1
  = waitingQueue s ++
    [{| resolve := ResolveWrapper p; reject := RejectWrapper p;
        timestamp := 6 |}] /\
  events (acquireTimer_fires p s1)
  = events s ++ [Rejected p (AcquireTimeout (acquireTimeout (poolConfig s)))].
Proof.
  refine (saturated_acquire_times_out 6 "conn_6_b"
            (run (Sample.pool 1 1)
               [Acquire 0 "conn_0_a"; ConnectSettles 0 Sample.ok 5;
                AcquireResumes 0 5]) _ _ _).
  - vm_compute. reflexivity.
  - vm_compute. reflexivity.
  - vm_compute. discriminate.
Defined.

(** X19.  Handoff: when no connection of the pool is available and a caller
    waits, [release] of a connected client of the pool gives this very
    client to the caller at the head of the queue, and to nobody else: the
    connection is in use again with [lastUsed = now], the other connections
    and the rest of the queue are as they were. *)
Theorem release_hands_connection_to_head r now s conn request queue :
  findConnectionByClient s r = Some conn ->
  Client.isConnected (client conn) now = true ->
  (forall c, In c (connections s) -> available now c = false) ->
  waitingQueue s = request :: queue ->
  let s' := fst (release r now s) in
  events s' = events s ++ [Resolved (promiseOfResolve (resolve request)) r] /\
  waitingQueue s' = queue /\
  exists before rest,
    connections s = before ++ conn :: rest /\
    connections s'
    = before ++
      {| client := client conn; id := id conn; createdAt := createdAt conn;
         lastUsed := now; inUse := true |} :: rest.
Proof.
  intros Hf Hco Hnone Hq s'.
  unfold findConnectionByClient in Hf.
  destruct (PoolProperties.find_first _ _ Hf) as (before & rest & Hm & Hc & Hb).
  assert (Hr : Client.ref (client conn) = r)
    by (apply Nat.eqb_eq; exact Hc).
  assert (Hbefore : Forall (fun x => available now x = false) before).
  { apply Forall_forall. intros x Hx. apply Hnone. rewrite Hm.
    apply in_or_app. left. assumption. }
  assert (Hrest : Forall (fun x => available now x = false) rest).
  { apply Forall_forall. intros x Hx. apply Hnone. rewrite Hm.
    apply in_or_app. right. right. assumption. }
  set (released := set_lastUsed now (set_inUse false conn)).
  assert (Hav : available now released = true).
  { unfold available, released, set_lastUsed, set_inUse.
    cbn [inUse client negb andb]. assumption. }
  set (taken := set_lastUsed now (set_inUse true released)).
  set (s1 := set_connections (before ++ released :: rest) s).
  set (s3 := callResolve (resolve request) (Client.ref (client released))
               (set_connections (before ++ taken :: rest)
                  (set_waitingQueue queue s1))).
  assert (Hfa : findAvailableConnection s1 now = Some released).
  { unfold findAvailableConnection, s1. simpl connections.
    apply PoolProperties.find_app_first; assumption. }
  assert (Hs3 : connections s3 = before ++ taken :: rest
                /\ waitingQueue s3 = queue
                /\ events s3 = events s ++
                               [Resolved (promiseOfResolve (resolve request)) r]).
  { unfold s3. rewrite PoolProperties.callResolve_events.
    destruct (resolve request); simpl; rewrite Hr; auto. }
  destruct Hs3 as (Hc3 & Hq3 & He3).
  assert (Hstop : processWaitingQueue_loop queue now s3 = s3).
  { destruct queue as [|w q]; [reflexivity |]. simpl.
    unfold findAvailableConnection. rewrite Hc3.
    rewrite find_none_all; [reflexivity |].
    apply Forall_app. split; [assumption |].
    constructor; [reflexivity | assumption]. }
  assert (Heq : s' = s3).
  { unfold s', release, findConnectionByClient. rewrite Hf. simpl fst.
    rewrite Hm. rewrite PoolProperties.updateFirst_first by assumption.
    fold released. fold s1.
    unfold processWaitingQueue.
    replace (waitingQueue s1) with (request :: queue)
      by (symmetry; exact Hq).
    cbn [processWaitingQueue_loop]. rewrite Hfa.
    replace (connections (set_waitingQueue queue s1))
      with (before ++ released :: rest) by reflexivity.
    rewrite PoolProperties.updateFirst_first by assumption.
    fold taken. fold s3. exact Hstop. }
  rewrite Heq. split; [assumption |]. split; [assumption |].
  exists before, rest. split; [assumption |]. exact Hc3.
Qed.

Lemma release_hands_connection_to_head_witness :
  let s' := fst (release 0 200 two_waiting) in
  events s'
  = events two_waiting ++
    [Resolved (promiseOfResolve (ResolveWrapper 1)) 0] /\
  waitingQueue s'
  = [{| resolve := ResolveWrapper 2; reject := RejectWrapper 2;
        timestamp := 7 |}].
Proof.
  pose proof (release_hands_connection_to_head 0 200 two_waiting
                (conn := {| client := Client.set_isConnecting false
                               (Client.set_lastUsed 5
                                  (Client.set_connection true
                                     (Client.set_isConnecting true
                                        (Client.new 0 Sample.cfg 0))));
                   id := "conn_0_a"; createdAt := 5; lastUsed := 5;
                   inUse := true |})
                (request := {| resolve := ResolveWrapper 1;
                               reject := RejectWrapper 1; timestamp := 6 |})
                (queue := [{| resolve := ResolveWrapper 2;
                              reject := RejectWrapper 2; timestamp := 7 |}]))
    as H.
  assert (H1 : findConnectionByClient two_waiting 0
               = Some {| client := Client.set_isConnecting false
                               (Client.set_lastUsed 5
                                  (Client.set_connection true
                                     (Client.set_isConnecting true
                                        (Client.new 0 Sample.cfg 0))));
                   id := "conn_0_a"; createdAt := 5; lastUsed := 5;
                   inUse := true |}) by (vm_compute; reflexivity).
  assert (H2 : forall c, In c (connections two_waiting) ->
                         available 200 c = false).
  { intros c Hc.
    assert (Hl : connections two_waiting
                 = [{| client := Client.set_isConnecting false
                               (Client.set_lastUsed 5
                                  (Client.set_connection true
                                     (Client.set_isConnecting true
                                        (Client.new 0 Sample.cfg 0))));
                   id := "conn_0_a"; createdAt := 5; lastUsed := 5;
                   inUse := true |}]) by (vm_compute; reflexivity).
    rewrite Hl in Hc. destruct Hc as [<- | []]. reflexivity. }
  assert (H3 : waitingQueue two_waiting
               = [{| resolve := ResolveWrapper 1; reject := RejectWrapper 1;
                     timestamp := 6 |};
                  {| resolve := ResolveWrapper 2; reject := RejectWrapper 2;
                     timestamp := 7 |}]) by (vm_compute; reflexivity).
  destruct (H H1 eq_refl H2 H3) as (He & Hq & _).
  split; assumption.
Defined.

Lemma cleanup_tick_keeps_connections_in_use_witness :
  let s := run (constructor Sample.cfg (Sample.settings 5 1 1000 100))
             [Acquire 0 "conn_0_a"; Acquire 0 "conn_0_b"; Acquire 0 "conn_0_c";
              ConnectSettles 0 Sample.ok 5; ConnectSettles 1 Sample.ok 5;
              ConnectSettles 2 Sample.ok 5;
              AcquireResumes 0 5; AcquireResumes 1 5; AcquireResumes 2 5;
              Release 1 10; Release 2 10] in
  NoDup (map id (connections s)) /\
  exists c',
    In c' (connections (cleanupIdleConnections 60000 (fun _ => true) s)) /\
    id c' = "conn_0_a"%string /\ inUse c' = true.
Proof.
  refine (cleanup_tick_keeps_connections_in_use Sample.cfg
            (Sample.settings 5 1 1000 100)
            [Acquire 0 "conn_0_a"; Acquire 0 "conn_0_b"; Acquire 0 "conn_0_c";
             ConnectSettles 0 Sample.ok 5; ConnectSettles 1 Sample.ok 5;
             ConnectSettles 2 Sample.ok 5;
             AcquireResumes 0 5; AcquireResumes 1 5; AcquireResumes 2 5;
             Release 1 10; Release 2 10]
            60000 (fun _ => true)
            {| client := Client.set_isConnecting false
                           (Client.set_lastUsed 5
                              (Client.set_connection true
                                 (Client.set_isConnecting true
                                    (Client.new 0 Sample.cfg 0))));
               id := "conn_0_a"; createdAt := 5; lastUsed := 5;
               inUse := true |} _ _).
  - vm_compute. left. reflexivity.
  - reflexivity.
Defined.

(** ** A tick cut at its awaits *)

Lemma not_in_map_delete k m : ~ In k (map id (map_delete k m)).
Proof.
  unfold map_delete. intros Hin. apply in_map_iff in Hin.
  destruct Hin as (x & Hid & Hx). apply filter_In in Hx.
  destruct Hx as [_ Hx]. unfold has_id in Hx. rewrite Hid in Hx.
  rewrite String.eqb_refl in Hx. discriminate.
Qed.

(** X20.  Between the scan of a cleanup tick and the end of a disconnect
    the tick awaits, the pool goes on: a connection the scan chose is
    deleted from the map when its disconnect has succeeded, whatever has
    happened to it since, without a look at [inUse]; no caller is told
    and the wait queue is not served.  So a connection that [acquire]
    hands out in between is closed under its caller. *)
Theorem cleanup_closes_connection_taken_meanwhile s k connection rest destroyOk :
  nth_error (cleaning s) k = Some (connection :: rest) ->
  (forall r, destroyOk r = true) ->
  let s' := step s (CleanupDisconnectSettles k destroyOk) in
  ~ In (id connection) (map id (connections s')) /\
  events s' = events s /\
  waitingQueue s' = waitingQueue s.
Proof.
  intros Hk Hok s'. unfold s'. cbn [step].
  unfold cleanupIdleConnections_resume. rewrite Hk.
  cbn [connections set_cleaning set_connections events waitingQueue].
  split; [| split; reflexivity].
  unfold closeOne.
  destruct (disconnect destroyOk
              (currentClient (connections s) connection)) as [ok c] eqn:Hd.
  assert (ok = true) as ->.
  { unfold disconnect in Hd.
    destruct (Client.connection (currentClient (connections s) connection));
      inversion Hd; [apply Hok | reflexivity]. }
  apply not_in_map_delete.
Qed.

Lemma cleanup_closes_connection_taken_meanwhile_witness :
  let s' := step taken_meanwhile (CleanupDisconnectSettles 0 (fun _ => true)) in
  ~ In (id (scanned 0 "conn_0_a")) (map id (connections s')) /\
  events s' = events taken_meanwhile /\
  waitingQueue s' = waitingQueue taken_meanwhile.
Proof.
  refine (@cleanup_closes_connection_taken_meanwhile taken_meanwhile 0%nat
            (scanned 0 "conn_0_a") [scanned 1 "conn_0_b"] (fun _ => true) _ _).
  - vm_compute. reflexivity.
  - intros r. reflexivity.
Defined.

(** In that run the connection is in use, by the caller of the third
    [acquire], when the disconnect settles; afterwards the pool holds only
    the other connection and a [release] by that caller changes nothing. *)
Lemma taken_meanwhile_is_in_use :
  let s' := step taken_meanwhile (CleanupDisconnectSettles 0 (fun _ => true)) in
  events taken_meanwhile = [Returned 0 0; Returned 1 1; Returned 2 0] /\
  map id (connections taken_meanwhile) = ["conn_0_a"; "conn_0_b"]%string /\
  map inUse (connections taken_meanwhile) = [true; false] /\
  map id (connections s') = ["conn_0_b"%string] /\
  step s' (Release 0 60010) = s'.
Proof. vm_compute. repeat split. Qed.

End PoolFacts.

(** * Properties of the handler *)

Module HandlerFacts.

Import Handler.

Lemma countJOIN_from_includes hay : forall skip,
  (0 < countJOIN_from skip hay)%nat -> includes "JOIN" hay = true.
Proof.
  induction hay as [|a hay IH]; intros skip H; [simpl in H; lia |].
  cbn [countJOIN_from] in H.
  change (includes "JOIN" (String a hay))
    with (String.prefix "JOIN" (String a hay) || includes "JOIN" hay).
  destruct skip as [|k].
  - destruct (String.prefix "JOIN" (String a hay)); [reflexivity |].
    simpl orb. eapply IH; eassumption.
  - rewrite (IH k H). apply orb_true_r.
Qed.

(** X16.  The handler always passes a timeout that [execute] uses as it
    is (the default of 30000 ms never replaces it): 15000, 60000 or
    300000 ms.  So a handler query whose operation has not completed
    within the timeout of its complexity fails, once the connection is
    there, at that deadline with the timeout error of that duration. *)
Theorem handler_timeout_is_the_deadline
    sqlUpper c now queryId hs op start c1 :
  let ms := calculateQueryTimeout (estimateComplexity sqlUpper) in
  Client.connect c now hs = (Settles start (inr tt), c1) ->
  Client.notCompletedWithin ms op ->
  (ms = 15000 \/ ms = 60000 \/ ms = 300000) /\
  orDefault (Client.timeout (queryOptions sqlUpper)) Client.defaultTimeout = ms /\
  fst (Client.execute c (queryOptions sqlUpper) now queryId hs op)
  = Settles (start + ms) (inl (Client.QueryTimeout ms)).
Proof.
  intros ms Hc Hop.
  assert (Hms : ms = 15000 \/ ms = 60000 \/ ms = 300000).
  { unfold ms. destruct (estimateComplexity sqlUpper); simpl; auto. }
  assert (Hd : orDefault (Client.timeout (queryOptions sqlUpper))
                 Client.defaultTimeout = ms).
  { unfold queryOptions. simpl. fold ms.
    destruct Hms as [-> | [-> | ->]]; reflexivity. }
  split; [assumption |]. split; [assumption |].
  rewrite <- Hd.
  apply (ClientProperties.execute_deadline c (queryOptions sqlUpper) now
           queryId hs op Hc).
  - rewrite Hd. destruct Hms as [-> | [-> | ->]]; lia.
  - rewrite Hd. assumption.
Qed.

Lemma handler_timeout_is_the_deadline_witness :
  let ms := calculateQueryTimeout
              (estimateComplexity "SELECT * FROM A JOIN B ON A.X = B.X") in
  (ms = 15000 \/ ms = 60000 \/ ms = 300000) /\
  orDefault (Client.timeout
               (queryOptions "SELECT * FROM A JOIN B ON A.X = B.X"))
            Client.defaultTimeout = ms /\
  fst (Client.execute (Sample.connected 0)
         (queryOptions "SELECT * FROM A JOIN B ON A.X = B.X") 10
         "query_10_abc" Sample.ok Client.NeverCompletes)
  = Settles (10 + ms) (inl (Client.QueryTimeout ms)).
Proof.
  refine (handler_timeout_is_the_deadline
            "SELECT * FROM A JOIN B ON A.X = B.X" (Sample.connected 0) 10
            "query_10_abc" Sample.ok Client.NeverCompletes (start := 10)
            (c1 := Client.set_lastUsed 10 (Sample.connected 0)) _ _).
  - reflexivity.
  - exact I.
Defined.

(** X17.  The estimate is [low], and so the timeout 15000 ms and the
    priority [high], exactly when the upper-cased SQL contains none of
    JOIN, UNION, WINDOW, "OVER (", RECURSIVE and PIVOT; and three or more
    JOIN make it [high], with the timeout 300000 ms. *)
Theorem estimate_is_low_without_keywords sqlUpper :
  (calculateQueryTimeout (estimateComplexity sqlUpper) = 15000
   <-> includes "JOIN" sqlUpper = false /\
       includes "UNION" sqlUpper = false /\
       includes "WINDOW" sqlUpper = false /\
       includes "OVER (" sqlUpper = false /\
       includes "RECURSIVE" sqlUpper = false /\
       includes "PIVOT" sqlUpper = false) /\
  ((2 < countJOIN sqlUpper)%nat ->
   calculateQueryTimeout (estimateComplexity sqlUpper) = 300000 /\
   getQueryPriority (estimateComplexity sqlUpper) = Client.low).
Proof.
  unfold estimateComplexity.
  pose proof (countJOIN_from_includes sqlUpper 0) as Hcount.
  fold (countJOIN sqlUpper) in Hcount.
  destruct (Nat.ltb_spec 2 (countJOIN sqlUpper)) as [Hlt | Hge].
  - rewrite Hcount by lia. rewrite !orb_true_r. simpl.
    split; [| auto].
    split; [discriminate | intros (H & _); discriminate].
  - rewrite !orb_false_r.
    split; [| lia].
    destruct (includes "JOIN" sqlUpper), (includes "UNION" sqlUpper),
      (includes "WINDOW" sqlUpper), (includes "OVER (" sqlUpper),
      (includes "RECURSIVE" sqlUpper), (includes "PIVOT" sqlUpper);
      simpl; split; intros H; try discriminate; try tauto;
      repeat split; destruct H as (?&?&?&?&?&?); discriminate.
Qed.

Lemma estimate_is_low_without_keywords_witness :
  calculateQueryTimeout
    (estimateComplexity "SELECT * FROM A JOIN B JOIN C JOIN D") = 300000 /\
  getQueryPriority
    (estimateComplexity "SELECT * FROM A JOIN B JOIN C JOIN D") = Client.low.
Proof.
  refine (proj2 (estimate_is_low_without_keywords
                   "SELECT * FROM A JOIN B JOIN C JOIN D") _).
  vm_compute. lia.
Defined.

End HandlerFacts.

(** * The order of service of the wait queue *)

Module PoolOrder.

Import Pool.
Import Scenario.

Lemma Subseq_app {A : Type} (k l k' l' : list A) :
  Subseq k l -> Subseq k' l' -> Subseq (k ++ k') (l ++ l').
Proof.
  induction 1 as [| x k l _ IH | x k l _ IH]; intros H'; simpl;
    [assumption | apply Subseq_skip | apply Subseq_keep]; auto.
Qed.

Lemma Subseq_app_skip {A : Type} (k l l' : list A) :
  Subseq k l -> Subseq k (l ++ l').
Proof.
  intros H. rewrite <- (app_nil_r k).
  apply Subseq_app; [assumption | apply PoolProperties.Subseq_nil_l].
Qed.

Ltac serves_none new :=
  eexists [], _, new;
  split; [reflexivity |];
  split; [simpl; rewrite ?app_nil_r; reflexivity |];
  split; [reflexivity |];
  left; simpl; rewrite ?app_nil_r; reflexivity.

Lemma step_servesHead s c :
  Forall wrapped (waitingQueue s) -> servesHead s c.
Proof.
  intros Hw. unfold servesHead.
  destruct c as [now ids | now connectionId | r hs now | p now | r now | p
                 | now destroyOk | | | c | now | k destroyOk];
    cbn [step enqueues].
  - destruct (PoolProperties.initialize_loop_spec ids now
                (Z.to_nat (minConnections (poolConfig s))) 0 s)
      as (_ & _ & _ & _ & Hq & He).
    exists [], (waitingQueue s), [].
    rewrite !app_nil_r. auto.
  - unfold acquire.
    change (isShuttingDown (set_nextPromise (S (nextPromise s)) s))
      with (isShuttingDown s).
    change (findAvailableConnection (set_nextPromise (S (nextPromise s)) s) now)
      with (findAvailableConnection s now).
    change (size (connections (set_nextPromise (S (nextPromise s)) s)))
      with (size (connections s)).
    change (poolConfig (set_nextPromise (S (nextPromise s)) s))
      with (poolConfig s).
    destruct (isShuttingDown s);
      [serves_none [Threw (nextPromise s) ShuttingDown] |].
    destruct (findAvailableConnection s now) as [a|];
      [serves_none [Returned (nextPromise s) (Client.ref (client a))] |].
    destruct (size (connections s) <? maxConnections (poolConfig s));
      serves_none (@nil Event).
  - unfold createConnection_resume.
    destruct (find (creates r) (connecting s)) as [cr|];
      [| serves_none (@nil Event)].
    destruct (Client.connect _ _ hs) as [[t [e|u]|] c];
      destruct (owner cr); serves_none (@nil Event).
  - unfold acquire_resume.
    destruct (find (resumes p) (resuming s)) as [[q [e|c]]|];
      [serves_none (@nil Event) | serves_none [Returned p c]
       | serves_none (@nil Event)].
  - unfold release.
    destruct (findConnectionByClient s r) as [conn|];
      [| serves_none (@nil Event)].
    simpl fst.
    match goal with |- context [processWaitingQueue now ?s1] =>
      destruct (PoolProperties.processWaitingQueue_spec now s1)
        as (_ & _ & served & new & Hq & He & Hr & _);
      set (s' := processWaitingQueue now s1) in *
    end.
    simpl in Hq, He.
    exists served, (waitingQueue s'), new.
    split; [assumption |]. split; [assumption |]. split; [assumption |].
    left. rewrite app_nil_r. reflexivity.
  - unfold acquireTimer_fires.
    destruct (existsb (Nat.eqb p) (timers s)); [| serves_none (@nil Event)].
    change (waitingQueue (clearTimeout p s)) with (waitingQueue s).
    rewrite (PoolFacts.findIndex_wrapped p Hw).
    serves_none [Rejected p (AcquireTimeout (acquireTimeout (poolConfig s)))].
  - unfold cleanupIdleConnections.
    destruct (cleanupInterval s), (isShuttingDown s); serves_none (@nil Event).
  - destruct (PoolProperties.shutdown_spec s) as (_ & _ & _ & Hq & _ & _ & He).
    exists [], (waitingQueue s),
           (map (fun w => Rejected (promiseOfReject (reject w)) ShuttingDown)
                (waitingQueue s)).
    split; [reflexivity |]. split; [exact He |].
    split; [apply PoolProperties.resolvedWaiters_map_rejected |].
    right. split; [reflexivity |]. split; [reflexivity | exact Hq].
  - unfold shutdown_resume. destruct (closing s); serves_none (@nil Event).
  - serves_none (@nil Event).
  - unfold cleanupIdleConnections_scan.
    destruct (cleanupInterval s), (isShuttingDown s);
      try serves_none (@nil Event).
    destruct (filter _ _); serves_none (@nil Event).
  - unfold cleanupIdleConnections_resume.
    destruct (nth_error _ k) as [[|x rest]|]; serves_none (@nil Event).
Qed.

(** The queue of a reachable pool is the tail of the history of arrivals,
    and the promises resolved so far were resolved in the order of
    arrival. *)
Lemma run_history calls : forall s history departed,
  Forall wrapped (waitingQueue s) ->
  history = departed ++ waitingQueue s ->
  Subseq (resolvedWaiters (events s))
         (map (fun w => promiseOfResolve (resolve w)) departed) ->
  exists departed',
    history ++ enqueueHistory s calls = departed' ++ waitingQueue (run s calls) /\
    Subseq (resolvedWaiters (events (run s calls)))
           (map (fun w => promiseOfResolve (resolve w)) departed').
Proof.
  induction calls as [|c calls IH]; intros s history departed Hw Hh Hs.
  - exists departed. simpl. rewrite app_nil_r. auto.
  - simpl run. simpl enqueueHistory.
    destruct (@step_servesHead s c Hw) as (served & rest & new & Hq & He & Hr & Hq').
    rewrite app_assoc.
    destruct Hq' as [Hq' | (-> & -> & Hq')].
    + apply IH with (departed := departed ++ served).
      * apply PoolFacts.step_wrapped. assumption.
      * rewrite Hq'. rewrite Hh, Hq. rewrite <- !app_assoc. reflexivity.
      * rewrite He, PoolProperties.resolvedWaiters_app, Hr, map_app.
        apply Subseq_app; [assumption | apply PoolProperties.Subseq_refl].
    + apply IH with (departed := departed ++ rest).
      * apply PoolFacts.step_wrapped. assumption.
      * rewrite Hq'. simpl enqueues. rewrite !app_nil_r.
        rewrite Hh, Hq. reflexivity.
      * rewrite He, PoolProperties.resolvedWaiters_app, Hr. simpl.
        rewrite app_nil_r, map_app. apply Subseq_app_skip. assumption.
Qed.

(** C3.  The wait queue is served in the order of arrival.  In every state
    a constructed pool can reach, the queue is exactly the tail of the
    history of arrivals (the requests in the order in which
    [waitForConnection] was called for them): every request that arrived
    before a queued one has left the queue or is before it in the queue,
    and the promises resolved so far were resolved in the order of
    arrival.  In every step the requests whose [resolve] is called are a
    prefix of the queue, in the order of the queue, the other requests
    stay in place and a new request joins at the end (only [shutdown]
    empties the queue, resolving none).  And when [release] is given a
    client of the pool that is connected, the request at the head of the
    queue is the first one resolved. *)
Theorem wait_queue_is_fifo :
  (forall cfg pc calls,
     let s := run (constructor cfg pc) calls in
     exists departed,
       enqueueHistory (constructor cfg pc) calls = departed ++ waitingQueue s /\
       Subseq (resolvedWaiters (events s))
              (map (fun w => promiseOfResolve (resolve w)) departed)) /\
  (forall cfg pc calls c,
     let s := run (constructor cfg pc) calls in
     exists served rest new,
       waitingQueue s = served ++ rest /\
       events (step s c) = events s ++ new /\
       resolvedWaiters new
       = map (fun w => promiseOfResolve (resolve w)) served /\
       (waitingQueue (step s c) = rest ++ enqueues s c \/
        (c = Shutdown /\ served = [] /\ waitingQueue (step s c) = []))) /\
  (forall s r now conn request queue,
     findConnectionByClient s r = Some conn ->
     Client.isConnected (client conn) now = true ->
     waitingQueue s = request :: queue ->
     exists c served new,
       events (step s (Release r now))
       = events s ++ Resolved (promiseOfResolve (resolve request)) c :: new /\
       queue = served ++ waitingQueue (step s (Release r now)) /\
       resolvedWaiters new
       = map (fun w => promiseOfResolve (resolve w)) served).
Proof.
  split; [| split].
  - intros cfg pc calls s.
    destruct (@run_history calls (constructor cfg pc) [] [])
      as (departed & Hh & Hs).
    + simpl. constructor.
    + reflexivity.
    + simpl. constructor.
    + exists departed. auto.
  - intros cfg pc calls c s. apply step_servesHead.
    apply PoolFacts.run_wrapped. simpl. constructor.
  - intros. simpl step. eapply PoolProperties.release_serves_head; eassumption.
Qed.

Lemma wait_queue_is_fifo_witness :
  exists c served new,
    events (step two_waiting (Release 0 200))
    = events two_waiting ++ Resolved (promiseOfResolve (ResolveWrapper 1)) c :: new /\
    [{| resolve := ResolveWrapper 2; reject := RejectWrapper 2;
        timestamp := 7 |}]
    = served ++ waitingQueue (step two_waiting (Release 0 200)) /\
    resolvedWaiters new = map (fun w => promiseOfResolve (resolve w)) served.
Proof.
  refine (proj2 (proj2 wait_queue_is_fifo) two_waiting 0%nat 200
            {| client := Client.set_isConnecting false
                           (Client.set_lastUsed 5
                              (Client.set_connection true
                                 (Client.set_isConnecting true
                                    (Client.new 0 Sample.cfg 0))));
               id := "conn_0_a"; createdAt := 5; lastUsed := 5;
               inUse := true |}
            {| resolve := ResolveWrapper 1; reject := RejectWrapper 1;
               timestamp := 6 |}
            [{| resolve := ResolveWrapper 2; reject := RejectWrapper 2;
                timestamp := 7 |}] _ _ _).
  - vm_compute. reflexivity.
  - vm_compute. reflexivity.
  - vm_compute. reflexivity.
Defined.

End PoolOrder.

(** * The request of a caller whose creation failed *)

Module PoolWaiting.

Import Pool.
Import Scenario.

(** ** No timer is lost *)

Lemma settled_app p evs new : settled p evs -> settled p (evs ++ new).
Proof.
  intros (e & Hin & He). exists e. split; [| assumption].
  apply in_or_app. left. assumption.
Qed.

Lemma settled_last p evs e : settles p e -> settled p (evs ++ [e]).
Proof.
  intros He. exists e. split; [| exact He].
  apply in_or_app. right. left. reflexivity.
Qed.

Lemma timersKept_refl s : timersKept s s.
Proof. split; auto. Qed.

Lemma timersKept_trans s1 s2 s3 :
  timersKept s1 s2 -> timersKept s2 s3 -> timersKept s1 s3.
Proof.
  intros [H1 H1'] [H2 H2']. split; intros p Hp.
  - destruct (H1 p Hp) as [H | H]; [apply H2 | right; apply H2']; assumption.
  - auto.
Qed.

Lemma timersKept_grow s s' added new :
  timers s' = timers s ++ added ->
  events s' = events s ++ new ->
  timersKept s s'.
Proof.
  intros Ht He. split; intros p Hp.
  - left. rewrite Ht. apply in_or_app. left. assumption.
  - rewrite He. apply settled_app. assumption.
Qed.

Lemma timersKept_same s s' :
  timers s' = timers s -> events s' = events s -> timersKept s s'.
Proof.
  intros Ht He. apply timersKept_grow with (added := []) (new := []);
    rewrite app_nil_r; assumption.
Qed.

Lemma timersKept_report s s' new :
  timers s' = timers s -> events s' = events s ++ new -> timersKept s s'.
Proof.
  intros Ht He. apply timersKept_grow with (added := []) (new := new);
    [rewrite app_nil_r |]; assumption.
Qed.

(** [clearTimeout(p)] together with the settlement of [p]. *)
Lemma timersKept_clear s s' p e :
  timers s' = filter (fun q => negb (Nat.eqb q p)) (timers s) ->
  events s' = events s ++ [e] ->
  settles p e ->
  timersKept s s'.
Proof.
  intros Ht He Hs. split; intros q Hq.
  - destruct (Nat.eqb q p) eqn:E.
    + apply Nat.eqb_eq in E. subst q. right. rewrite He.
      apply settled_last. assumption.
    + left. rewrite Ht. apply filter_In. split; [assumption |].
      rewrite E. reflexivity.
  - rewrite He. apply settled_app. assumption.
Qed.

Lemma callResolve_timersKept f c s : timersKept s (callResolve f c s).
Proof.
  destruct f as [p | p]; simpl.
  - apply timersKept_report with (new := [Resolved p c]); reflexivity.
  - apply timersKept_clear with (p := p) (e := Resolved p c);
      [reflexivity | reflexivity | left; eexists; reflexivity].
Qed.

Lemma callReject_timersKept f e s : timersKept s (callReject f e s).
Proof.
  destruct f as [p | p]; simpl.
  - apply timersKept_report with (new := [Rejected p e]); reflexivity.
  - apply timersKept_clear with (p := p) (e := Rejected p e);
      [reflexivity | reflexivity | right; eexists; reflexivity].
Qed.

Lemma processWaitingQueue_loop_timersKept now queue : forall s,
  timersKept s (processWaitingQueue_loop queue now s).
Proof.
  induction queue as [|request rest IH]; intros s; simpl;
    [apply timersKept_refl |].
  destruct (findAvailableConnection s now) as [a|]; [| apply timersKept_refl].
  eapply timersKept_trans; [| apply IH].
  eapply timersKept_trans; [| apply callResolve_timersKept].
  apply timersKept_same; reflexivity.
Qed.

Lemma rejectAll_timersKept e queue : forall s,
  timersKept s (rejectAll queue e s).
Proof.
  induction queue as [|request rest IH]; intros s; simpl;
    [apply timersKept_refl |].
  eapply timersKept_trans; [| apply IH].
  eapply timersKept_trans; [| apply callReject_timersKept].
  apply timersKept_same; reflexivity.
Qed.

Lemma initialize_loop_timers ids now n : forall i s,
  timers (initialize_loop n i ids now s) = timers s /\
  events (initialize_loop n i ids now s) = events s.
Proof.
  induction n as [|n IH]; intros i s; simpl; [split; reflexivity |].
  destruct (IH (S i) (createConnection ByInitialize (ids i) now s)) as [Ht He].
  rewrite Ht, He. split; reflexivity.
Qed.

Lemma step_timersKept s c : timersKept s (step s c).
Proof.
  destruct c as [now ids | now connectionId | r hs now | p now | r now | p
                 | now destroyOk | | | c | now | k destroyOk];
    cbn [step].
  - unfold initialize.
    destruct (initialize_loop_timers ids now
                (Z.to_nat (minConnections (poolConfig s))) 0 s) as [Ht He].
    apply timersKept_same; assumption.
  - unfold acquire.
    change (isShuttingDown (set_nextPromise (S (nextPromise s)) s))
      with (isShuttingDown s).
    change (findAvailableConnection (set_nextPromise (S (nextPromise s)) s) now)
      with (findAvailableConnection s now).
    destruct (isShuttingDown s);
      [eapply timersKept_report; reflexivity |].
    destruct (findAvailableConnection s now) as [a|];
      [eapply timersKept_report; reflexivity |].
    destruct (_ <? _).
    + apply timersKept_same; reflexivity.
    + apply timersKept_grow with (added := [nextPromise s]) (new := []);
        [reflexivity | rewrite app_nil_r; reflexivity].
  - unfold createConnection_resume.
    destruct (find (creates r) (connecting s)) as [cr|];
      [| apply timersKept_refl].
    destruct (Client.connect _ _ hs) as [[t [e|u]|] c];
      destruct (owner cr); apply timersKept_same; reflexivity.
  - unfold acquire_resume.
    destruct (find (resumes p) (resuming s)) as [[q [e|c]]|].
    + apply timersKept_grow with (added := [p]) (new := []);
        [reflexivity | rewrite app_nil_r; reflexivity].
    + eapply timersKept_report; reflexivity.
    + apply timersKept_refl.
  - unfold release.
    destruct (findConnectionByClient s r) as [conn|];
      [| apply timersKept_refl].
    simpl fst. unfold processWaitingQueue.
    eapply timersKept_trans;
      [| apply processWaitingQueue_loop_timersKept].
    apply timersKept_same; reflexivity.
  - unfold acquireTimer_fires.
    destruct (existsb (Nat.eqb p) (timers s)); [| apply timersKept_refl].
    destruct (findIndex _ _);
      (apply timersKept_clear
         with (p := p)
              (e := Rejected p (AcquireTimeout (acquireTimeout (poolConfig s))));
       [reflexivity | reflexivity | right; eexists; reflexivity]).
  - unfold cleanupIdleConnections.
    destruct (cleanupInterval s), (isShuttingDown s);
      apply timersKept_same; reflexivity.
  - unfold shutdown.
    eapply timersKept_trans;
      [| eapply timersKept_trans;
         [apply rejectAll_timersKept | apply timersKept_same; reflexivity]].
    destruct (cleanupInterval _); apply timersKept_same; reflexivity.
  - unfold shutdown_resume.
    destruct (closing s); apply timersKept_same; reflexivity.
  - apply timersKept_same; reflexivity.
  - unfold cleanupIdleConnections_scan.
    destruct (cleanupInterval s), (isShuttingDown s);
      try (apply timersKept_refl).
    destruct (filter _ _); apply timersKept_same; reflexivity.
  - unfold cleanupIdleConnections_resume.
    destruct (nth_error _ k) as [[|x rest]|]; apply timersKept_same; reflexivity.
Qed.

(** The request a step makes has its timer armed after the step. *)
Lemma enqueues_armed s c w :
  In w (enqueues s c) ->
  In (promiseOfResolve (resolve w)) (timers (step s c)).
Proof.
  destruct c as [now ids | now connectionId | r hs now | p now | r now | p
                 | now destroyOk | | | c | now | k destroyOk];
    cbn [step enqueues]; try contradiction.
  - unfold acquire.
    change (isShuttingDown (set_nextPromise (S (nextPromise s)) s))
      with (isShuttingDown s).
    change (findAvailableConnection (set_nextPromise (S (nextPromise s)) s) now)
      with (findAvailableConnection s now).
    change (size (connections (set_nextPromise (S (nextPromise s)) s)))
      with (size (connections s)).
    change (poolConfig (set_nextPromise (S (nextPromise s)) s))
      with (poolConfig s).
    destruct (isShuttingDown s); [contradiction |].
    destruct (findAvailableConnection s now); [contradiction |].
    destruct (_ <? _); [contradiction |].
    intros [<- | []]. simpl. apply in_or_app. right. left. reflexivity.
  - unfold acquire_resume.
    destruct (find (resumes p) (resuming s)) as [[q [e|c]]|];
      try contradiction.
    intros [<- | []]. simpl. apply in_or_app. right. left. reflexivity.
Qed.

Lemma step_armedOrSettled s c :
  Forall wrapped (waitingQueue s) ->
  armedOrSettled s -> armedOrSettled (step s c).
Proof.
  intros Hw Ha w Hin.
  destruct (@PoolOrder.step_servesHead s c Hw)
    as (served & rest & new & Hq & He & Hr & Hq').
  destruct (step_timersKept s c) as [Hk Hk'].
  destruct Hq' as [Hq' | (_ & _ & Hq')]; rewrite Hq' in Hin;
    [| contradiction].
  apply in_app_or in Hin. destruct Hin as [Hin | Hin].
  - assert (Hold : In w (waitingQueue s)).
    { rewrite Hq. apply in_or_app. right. assumption. }
    destruct (Ha w Hold) as [H | H]; [apply Hk | right; apply Hk'];
      assumption.
  - left. apply enqueues_armed. assumption.
Qed.

Lemma run_armedOrSettled calls : forall s,
  Forall wrapped (waitingQueue s) ->
  armedOrSettled s -> armedOrSettled (run s calls).
Proof.
  induction calls as [|c calls IH]; intros s Hw Ha; simpl; [assumption |].
  apply IH; [apply PoolFacts.step_wrapped | apply step_armedOrSettled];
    assumption.
Qed.

(** C8.  When [client.connect()] fails for a connection that [acquire]
    is creating, the error goes to the suspended [acquire] and nothing is
    reported to the caller; when that [acquire] resumes it reports nothing
    either: it arms the timer and joins the end of the wait queue.  In
    any run of the pool, every failure reported to a caller is the shutdown
    error or the acquire-timeout error of the configuration, never the
    error of a creation.  And the caller is not left without an answer: in
    every state a constructed pool can reach, each queued request has its
    timer armed or its promise settled; when the armed timer of a promise
    fires, the promise is rejected with the acquire-timeout error; when a
    connected client of the pool is released while the request is at the
    head of the queue, its promise is resolved with a client; and
    [shutdown] rejects the promise of every queued request with the
    shutdown error. *)
Theorem creation_failure_is_not_propagated :
  (forall s r hs now cr p t e c,
     find (creates r) (connecting s) = Some cr ->
     owner cr = ByAcquire p ->
     Client.connect (newClient cr) (startedAt cr) hs = (Settles t (inl e), c) ->
     let s' := step s (ConnectSettles r hs now) in
     events s' = events s /\
     waitingQueue s' = waitingQueue s /\
     connections s' = connections s /\
     resuming s' = resuming s ++ [(p, inl (CreateFailed e))]) /\
  (forall s p now q e,
     find (resumes p) (resuming s) = Some (q, inl e) ->
     let s' := step s (AcquireResumes p now) in
     events s' = events s /\
     connections s' = connections s /\
     timers s' = timers s ++ [p] /\
     waitingQueue s'
     = waitingQueue s ++
       [{| resolve := ResolveWrapper p; reject := RejectWrapper p;
           timestamp := now |}]) /\
  (forall s calls,
     exists new,
       events (run s calls) = events s ++ new /\
       Forall (allowed (poolConfig s)) new /\
       forall p cause,
         ~ In (Threw p (CreateFailed cause)) new /\
         ~ In (Rejected p (CreateFailed cause)) new) /\
  (forall cfg pc calls w,
     let s := run (constructor cfg pc) calls in
     In w (waitingQueue s) ->
     In (promiseOfResolve (resolve w)) (timers s) \/
     settled (promiseOfResolve (resolve w)) (events s)) /\
  (forall s p,
     In p (timers s) ->
     events (step s (AcquireTimerFires p))
     = events s ++ [Rejected p (AcquireTimeout (acquireTimeout (poolConfig s)))]) /\
  (forall s r now conn p t queue,
     findConnectionByClient s r = Some conn ->
     Client.isConnected (client conn) now = true ->
     waitingQueue s
     = {| resolve := ResolveWrapper p; reject := RejectWrapper p;
          timestamp := t |} :: queue ->
     exists c new,
       events (step s (Release r now)) = events s ++ Resolved p c :: new) /\
  (forall s p t,
     In {| resolve := ResolveWrapper p; reject := RejectWrapper p;
           timestamp := t |} (waitingQueue s) ->
     exists before after,
       events (step s Shutdown)
       = events s ++ before ++ Rejected p ShuttingDown :: after).
Proof.
  split; [| split; [| split; [| split; [| split; [| split]]]]].
  - intros s r hs now cr p t e c Hf Ho Hc. simpl.
    unfold createConnection_resume. rewrite Hf, Hc, Ho. repeat split.
  - intros s p now q e Hf. simpl.
    unfold acquire_resume. rewrite Hf. repeat split.
  - intros s calls.
    destruct (PoolProperties.run_Effect calls s) as (_ & _ & _ & new & He & Ha).
    exists new. split; [assumption |]. split; [assumption |].
    intros p cause. rewrite Forall_forall in Ha.
    split; intros Hin; destruct (Ha _ Hin); discriminate.
  - intros cfg pc calls w s. apply run_armedOrSettled.
    + simpl. constructor.
    + intros w' Hin. simpl in Hin. contradiction.
  - intros s p Hin. simpl. unfold acquireTimer_fires.
    replace (existsb (Nat.eqb p) (timers s)) with true.
    + destruct (findIndex _ _); reflexivity.
    + symmetry. apply existsb_exists. exists p. split; [assumption |].
      apply Nat.eqb_refl.
  - intros s r now conn p t queue Hf Hc Hq.
    destruct (PoolProperties.release_serves_head r now s Hf Hc Hq)
      as (c & served & new & He & _).
    exists c, new. exact He.
  - intros s p t Hin. change (step s Shutdown) with (shutdown s).
    destruct (PoolProperties.shutdown_spec s) as (_ & _ & _ & _ & _ & _ & He).
    apply in_split in Hin. destruct Hin as (l1 & l2 & Hq).
    exists (map (fun w => Rejected (promiseOfReject (reject w)) ShuttingDown) l1),
           (map (fun w => Rejected (promiseOfReject (reject w)) ShuttingDown) l2).
    rewrite He, Hq, map_app. reflexivity.
Qed.

Lemma creation_failure_is_not_propagated_witness :
  (let s' := step creation_failed (AcquireResumes 0 6) in
   events s' = events creation_failed /\
   connections s' = connections creation_failed /\
   timers s' = timers creation_failed ++ [0%nat] /\
   waitingQueue s'
   = waitingQueue creation_failed ++
     [{| resolve := ResolveWrapper 0; reject := RejectWrapper 0;
         timestamp := 6 |}]) /\
  events (step (step creation_failed (AcquireResumes 0 6))
               (AcquireTimerFires 0))
  = events (step creation_failed (AcquireResumes 0 6)) ++
    [Rejected 0 (AcquireTimeout
                   (acquireTimeout
                      (poolConfig (step creation_failed (AcquireResumes 0 6)))))].
Proof.
  split.
  - refine (proj1 (proj2 creation_failure_is_not_propagated) creation_failed
              0%nat 6 0%nat (CreateFailed (Client.ConnectFailed "refused")) _).
    vm_compute. reflexivity.
  - refine (proj1 (proj2 (proj2 (proj2 (proj2
              creation_failure_is_not_propagated))))
              (step creation_failed (AcquireResumes 0 6)) 0%nat _).
    vm_compute. left. reflexivity.
Defined.

End PoolWaiting.
